(** * serverless-resources-env: the deploy hook, embedded and verified

    A shallow embedding of [src/index.js] (class [ServerlessResourcesEnv],
    the revision with per-function resource lists and paged resource
    listing) together with the few lodash helpers and JavaScript object
    rules the plugin relies on.

    Layout:
    - [Js]      JavaScript values the plugin touches: truthiness of optional
                strings, [||], plain objects with their key enumeration order;
    - [lodash]  [_.keys], [_.reduce], [_.map], [_.pick], [_.difference],
                [_.extend], [_.join] on those objects and arrays;
    - the framework context ([serverless], [options]) as records;
    - the plugin methods, pure ones as functions, effectful ones in a small
      state/error/trace monad over an abstract file system;
    - the theorems. *)

From Stdlib Require Import String Ascii List Bool Arith NArith Lia DecimalString.
Import ListNotations.
Open Scope string_scope.

(* ================================================================== *)
(** ** JavaScript values *)

Module Js.

(** The line feed written as [\n] in the template literals. *)
Definition nl : string := String "010" "".

(** A configuration entry is either absent ([undefined]) or a string.
    [truthy] is JavaScript's ToBoolean on such a value: [undefined] and
    the empty string are falsy. *)
Definition truthy (v : option string) : bool :=
  match v with
  | Some s => negb (s =? "")
  | None => false
  end.

(** [a || d] where [d] is a string. *)
Definition or_else (v : option string) (d : string) : string :=
  match v with
  | Some s => if s =? "" then d else s
  | None => d
  end.

(** The value of a condition [if (v)] that held: [Some s] when [v] is a
    non-empty string, [None] when [v] is falsy. *)
Definition truthy_value (v : option string) : option string :=
  match v with
  | Some s => if s =? "" then None else Some s
  | None => None
  end.

(** [o && o.field] for an optional record [o]. *)
Definition and_then {A B} (o : option A) (field : A -> option B) : option B :=
  match o with
  | Some a => field a
  | None => None
  end.

(** Number to string, as a template literal prints a length. *)
Definition of_nat (n : nat) : string :=
  NilEmpty.string_of_uint (Nat.to_uint n).

(** *** Plain objects

    A plain object is kept as the list of its own properties in the order
    they were created. Assigning to an existing key keeps its place;
    assigning to a new key appends it. *)
Definition obj (V : Type) : Type := list (string * V).

Section Obj.
Context {V : Type}.

(** [o[k]] *)
Fixpoint get (k : string) (o : obj V) : option V :=
  match o with
  | [] => None
  | (k', v) :: o' => if k' =? k then Some v else get k o'
  end.

(** [o[k] = v] *)
Fixpoint set (k : string) (v : V) (o : obj V) : obj V :=
  match o with
  | [] => [(k, v)]
  | (k', v') :: o' =>
      if k' =? k then (k, v) :: o' else (k', v') :: set k v o'
  end.

(** [k in o] for an object without inherited properties of that name. *)
Definition has (k : string) (o : obj V) : bool :=
  match get k o with Some _ => true | None => false end.
End Obj.

(** *** Key enumeration order

    [Object.keys] lists array-index keys first, in ascending numeric order,
    then the other string keys in creation order. An array index is the
    canonical decimal form of an integer below 2^32 - 1. *)
Definition is_digit (c : ascii) : bool :=
  (48 <=? nat_of_ascii c)%nat && (nat_of_ascii c <=? 57)%nat.

Fixpoint parse_digits (s : string) (acc : N) : option N :=
  match s with
  | EmptyString => Some acc
  | String c s' =>
      if is_digit c
      then parse_digits s' (10 * acc + (N_of_ascii c - 48))%N
      else None
  end.

Definition array_index (s : string) : option N :=
  match s with
  | EmptyString => None
  | String c s' =>
      if (c =? "0")%char
      then match s' with EmptyString => Some 0%N | _ => None end
      else match parse_digits s 0%N with
           | Some n => if (n <? 2 ^ 32 - 1)%N then Some n else None
           | None => None
           end
  end.

Definition is_index (k : string) : bool :=
  match array_index k with Some _ => true | None => false end.

Definition index_le (a b : string) : bool :=
  match array_index a, array_index b with
  | Some x, Some y => (x <=? y)%N
  | _, _ => true
  end.

Fixpoint insert_sorted (k : string) (ks : list string) : list string :=
  match ks with
  | [] => [k]
  | k' :: ks' =>
      if index_le k k' then k :: ks else k' :: insert_sorted k ks'
  end.

Definition sort_indices (ks : list string) : list string :=
  fold_right insert_sorted [] ks.

(** [Object.keys(o)] *)
Definition own_keys {V} (o : obj V) : list string :=
  let ks := map fst o in
  sort_indices (filter is_index ks) ++ filter (fun k => negb (is_index k)) ks.

(** The property names every plain object inherits from
    [Object.prototype]: reading one of them on an object that has no own
    property of that name gives the inherited function or object, not
    [undefined]. *)
Definition object_prototype_names : list string :=
  [ "constructor"; "__defineGetter__"; "__defineSetter__"; "hasOwnProperty";
    "__lookupGetter__"; "__lookupSetter__"; "isPrototypeOf"; "propertyIsEnumerable";
    "toString"; "valueOf"; "__proto__"; "toLocaleString" ].

Definition inherited (k : string) : bool :=
  existsb (String.eqb k) object_prototype_names.

(** The entries of [o] in enumeration order, as a [for ... in] loop or
    [_.reduce] over the object meets them. *)
Definition entries {V} (o : obj V) : list (string * V) :=
  flat_map (fun k => match get k o with Some v => [(k, v)] | None => [] end) (own_keys o).

End Js.

(* ================================================================== *)
(** ** lodash

  The helpers as the plugin calls them. Property names are taken as they
  are: lodash's path syntax (a dot or a bracket inside a name given to
  [_.pick]) is outside this model. *)

Module lodash.
Import Js.

(** [_.keys(object)] *)
Definition keys {V} (o : obj V) : list string := own_keys o.

(** [_.reduce(array, iteratee, accumulator)] *)
Definition reduce {A B} (array : list A) (iteratee : B -> A -> B) (accumulator : B) : B :=
  fold_left iteratee array accumulator.

(** [_.reduce(object, (acc, value, key) => ..., accumulator)]: the own
    properties are visited in [_.keys] order. *)
Definition reduce_obj {V B} (o : obj V) (iteratee : B -> V -> string -> B)
    (accumulator : B) : B :=
  fold_left
    (fun acc k => match get k o with Some v => iteratee acc v k | None => acc end)
    (keys o) accumulator.

(** [_.map(collection, iteratee)]; a nullish collection maps to [[]]. *)
Definition map {A B} (collection : option (list A)) (iteratee : A -> B) : list B :=
  match collection with
  | Some l => List.map iteratee l
  | None => []
  end.

(** A name that [_.pick] takes as it is: one without ["."] and without
    ["["] cannot be read as a path. *)
Fixpoint literal_name (name : string) : bool :=
  match name with
  | EmptyString => true
  | String c rest =>
      negb ((c =? ".")%char || (c =? "[")%char) && literal_name rest
  end.

(** [_.pick(object, props)]: a new object with the listed properties that
    [object] has, created in the order they are listed. This is [_.pick]
    on names it takes as they are ([literal_name], or own keys of
    [object]); what it selects through a path is not modelled. *)
Definition pick {V} (object : obj V) (props : list string) : obj V :=
  fold_left
    (fun result k => match get k object with Some v => set k v result | None => result end)
    props [].

(** [_.difference(array, values)] *)
Definition difference (array values : list string) : list string :=
  filter (fun x => negb (existsb (String.eqb x) values)) array.

(** One source of [_.extend]: every enumerable key of [source] is
    assigned onto [object]. *)
Definition assign {V} (object source : obj V) : obj V :=
  fold_left
    (fun acc k => match get k source with Some v => set k v acc | None => acc end)
    (keys source) object.

(** [_.extend(object, ...sources)]; nullish sources are skipped. *)
Definition extend {V} (object : obj V) (sources : list (option (obj V))) : obj V :=
  fold_left
    (fun acc s => match s with Some src => assign acc src | None => acc end)
    sources object.

(** [_.join(array)] with the default separator [","]. *)
Definition join (array : list string) : string := String.concat "," array.

End lodash.


(* ================================================================== *)
(** ** The framework context

    What the framework hands to the constructor: [serverless] (the parsed
    service file and run configuration) and the command line [options].
    Optional entries are [option]s; [None] is [undefined]. *)

(** [this.options] *)
Record Options := {
  opt_stage : option string;
  opt_region : option string;
  opt_function : option string
}.

(** [serverless.config] *)
Record Config := {
  servicePath : string;
  config_stage : option string;
  config_region : option string
}.

(** [serverless.service.provider] *)
Record Provider := {
  provider_stage : option string;
  provider_region : option string;
  provider_environment : option (Js.obj string)
}.

(** [serverless.service.functions[name].custom] *)
Record FunctionCustom := {
  env_resources : option (list string);
  function_resource_output_file : option string
}.

(** [serverless.service.functions[name]] *)
Record FunctionDef := {
  function_custom : option FunctionCustom;
  function_environment : option (Js.obj string)
}.

(** [serverless.service.custom] *)
Record ServiceCustom := {
  resource_output_dir : option string
}.

(** [serverless.service] *)
Record Service := {
  service_name : string;
  provider : Provider;
  functions : Js.obj FunctionDef;
  service_custom : option ServiceCustom
}.

Record Serverless := {
  config : Config;
  service : Service
}.

(** The plugin instance, [this]. *)
Record ServerlessResourcesEnv := {
  serverless : Serverless;
  options : option Options
}.

(* ================================================================== *)
(** ** Stage, region and stack name *)

(** [getStage()]: the first truthy of the command line option, the run
    configuration and the provider setting, else ["dev"]. *)
Definition getStage (this : ServerlessResourcesEnv) : string :=
  match Js.truthy_value (Js.and_then (options this) opt_stage) with
  | Some stage => stage
  | None =>
      match Js.truthy_value (config_stage (config (serverless this))) with
      | Some stage => stage
      | None =>
          match Js.truthy_value (provider_stage (provider (service (serverless this)))) with
          | Some stage => stage
          | None => "dev"
          end
      end
  end.

(** [getRegion()] *)
Definition getRegion (this : ServerlessResourcesEnv) : string :=
  match Js.truthy_value (Js.and_then (options this) opt_region) with
  | Some region => region
  | None =>
      match Js.truthy_value (config_region (config (serverless this))) with
      | Some region => region
      | None =>
          match Js.truthy_value (provider_region (provider (service (serverless this)))) with
          | Some region => region
          | None => "us-east-1"
          end
      end
  end.

(** [getStackName()] *)
Definition getStackName (this : ServerlessResourcesEnv) : string :=
  service_name (service (serverless this)) ++ "-" ++ getStage this.

(** The precedence rule in the words of the design: the first source that
    is set wins, and the fallback is used when none is. A source is set
    when it holds a non-empty string, which is what [if (value)] tests. *)
Fixpoint first_set (sources : list (option string)) (fallback : string) : string :=
  match sources with
  | [] => fallback
  | Some s :: rest => if s =? "" then first_set rest fallback else s
  | None :: rest => first_set rest fallback
  end.

(* ================================================================== *)
(** ** Errors, events and the effect monad *)

(** What can be thrown or passed as [err]. *)
Inductive Exn :=
| Error (message : string)
| TypeError (message : string)
| Raised (code : string).

(** One entry of a [listStackResources] page. *)
Record StackResourceSummary := {
  LogicalResourceId : string;
  PhysicalResourceId : string
}.

(** The page handed to the [listStackResources] callback. *)
Record ResultPage := {
  StackResourceSummaries : list StackResourceSummary;
  NextToken : option string
}.

(** The two arguments [(err, resourceResultPage)] of the callback. *)
Inductive Callback :=
| CbErr (err : Exn)
| CbPage (resourceResultPage : ResultPage).

(** What the plugin does to the outside, in program order. *)
Inductive Event :=
| Log (message : string)
| ListStackResources (StackName : string) (NextToken : option string)
| UpdateFunctionConfiguration (FunctionName : string) (Variables : Js.obj string)
| MkdirSync (path : string) (mode : N)
| WriteFile (file : string) (data : string).

(** A promise whose settlement the model determines. *)
Inductive Promise (A : Type) :=
| Resolved (value : A)
| Rejected (reason : Exn)
| Pending.
Arguments Resolved {A} value.
Arguments Rejected {A} reason.
Arguments Pending {A}.

(** The synchronous part of [fs] the plugin uses. [this.fs] is injected, so
    it is an interface here; a call either returns or throws. *)
Class FileSystem (FS : Type) := {
  existsSync : string -> FS -> bool;
  mkdirSync : string -> N -> FS -> Exn + FS;
  statSync_isDirectory : string -> FS -> Exn + bool
}.

(** A computation returns or throws. *)
Inductive Result (A : Type) :=
| Ok (value : A)
| Throw (e : Exn).
Arguments Ok {A} value.
Arguments Throw {A} e.

Section Plugin.
Context {FS : Type} `{FileSystem FS}.

(** State (the file system), exceptions, and the events emitted. *)
Definition M (A : Type) : Type := FS -> Result A * FS * list Event.

Definition ret {A} (a : A) : M A := fun fs => (Ok a, fs, []).

Definition bind {A B} (m : M A) (f : A -> M B) : M B :=
  fun fs =>
    match m fs with
    | (Ok a, fs1, ev1) =>
        match f a fs1 with
        | (r, fs2, ev2) => (r, fs2, (ev1 ++ ev2)%list)
        end
    | (Throw e, fs1, ev1) => (Throw e, fs1, ev1)
    end.

Definition throw {A} (e : Exn) : M A := fun fs => (Throw e, fs, []).

Definition emit (ev : list Event) : M unit := fun fs => (Ok tt, fs, ev).

(** [this.serverless.cli.log(message)] *)
Definition log (message : string) : M unit := emit [Log message].

(** [this.fs.existsSync(path)] *)
Definition lift_exists (path : string) : M bool :=
  fun fs => (Ok (existsSync path fs), fs, []).

(** [this.fs.mkdirSync(path, mode)]; the call is recorded whether it
    returns or throws. *)
Definition lift_mkdir (path : string) (mode : N) : M unit :=
  fun fs =>
    match mkdirSync path mode fs with
    | inr fs' => (Ok tt, fs', [MkdirSync path mode])
    | inl e => (Throw e, fs, [MkdirSync path mode])
    end.

(** [this.fs.statSync(path).isDirectory()] *)
Definition lift_isDirectory (path : string) : M bool :=
  fun fs =>
    match statSync_isDirectory path fs with
    | inr b => (Ok b, fs, [])
    | inl e => (Throw e, fs, [])
    end.

Notation "x <- m ;; k" := (bind m (fun x => k))
  (at level 61, m at next level, right associativity).
Notation "m ;;; k" := (bind m (fun _ => k))
  (at level 61, right associativity).

(* ================================================================== *)
(** ** Fetching the stack resources *)

(** What the fetch resolves with: [{ StackResources: results }]. *)
Record ResourceResult := {
  StackResources : list StackResourceSummary
}.

(** [fetchCFResourcesPages(stackName, nextToken, resourceSummaries)].

    [responses] is what CloudFormation answers to the successive
    [listStackResources] calls. Each call is recorded as an event. When the
    service never calls back (no answer left) the promise stays pending. *)
Fixpoint fetchCFResourcesPages (stackName : string) (nextToken : option string)
    (resourceSummaries : list StackResourceSummary) (responses : list Callback)
    : list Event * Promise ResourceResult :=
  let request := ListStackResources stackName nextToken in
  match responses with
  | [] => ([request], Pending)
  | CbErr err :: _ => ([request], Rejected err)
  | CbPage resourceResultPage :: later =>
      match NextToken resourceResultPage with
      | None =>
          let results :=
            (resourceSummaries ++ StackResourceSummaries resourceResultPage)%list in
          ([request;
            Log ("[serverless-resources-env] Returned "
                 ++ Js.of_nat (length results) ++ " ResourceSummaries")],
           Resolved {| StackResources := results |})
      | Some token =>
          let allSummaries :=
            (resourceSummaries ++ StackResourceSummaries resourceResultPage)%list in
          let (events, promise) :=
            fetchCFResourcesPages stackName (Some token) allSummaries later in
          (request :: Log "[serverless-resources-env] Getting next Resources page" :: events,
           promise)
      end
  end.

(** [fetchCFResources()] *)
Definition fetchCFResources (this : ServerlessResourcesEnv) (responses : list Callback)
    : list Event * Promise ResourceResult :=
  let stackName := getStackName this in
  let (events, promise) := fetchCFResourcesPages stackName None [] responses in
  (Log ("[serverless-resources-env] Looking up resources for CF Named: " ++ stackName)
     :: events,
   promise).

(* ================================================================== *)
(** ** The local env file *)

(** [getEnvDirectory()] *)
Definition getEnvDirectory (this : ServerlessResourcesEnv) : string :=
  let customDirectory :=
    Js.and_then (service_custom (service (serverless this))) resource_output_dir in
  let directory := Js.or_else customDirectory ".serverless-resources-env" in
  servicePath (config (serverless this)) ++ "/" ++ directory.

(** [getEnvFileName(functionName)]. [functions[functionName]] is the
    declared function when there is one; for a name inherited from
    [Object.prototype] it is the inherited value, which has no [custom], so
    the default name comes out; for any other name it is [undefined], and
    reading [.custom] of it throws. *)
Definition getEnvFileName (this : ServerlessResourcesEnv) (functionName : string)
    : Result string :=
  let stage := getStage this in
  let region := getRegion this in
  match Js.get functionName (functions (service (serverless this))) with
  | None =>
      if Js.inherited functionName
      then Ok ("." ++ region ++ "_" ++ stage ++ "_" ++ functionName)
      else Throw (TypeError "Cannot read property 'custom' of undefined")
  | Some f =>
      let customName := Js.and_then (function_custom f) function_resource_output_file in
      Ok (Js.or_else customName ("." ++ region ++ "_" ++ stage ++ "_" ++ functionName))
  end.

(** The properties text: [_.reduce(resources, (properties, item, key) =>
    `${properties}${key}=${item}\n`, '')]. *)
Definition properties (resources : Js.obj string) : string :=
  lodash.reduce_obj resources
    (fun properties item key => properties ++ key ++ "=" ++ item ++ Js.nl) "".

Definition lift_result {A} (r : Result A) : M A :=
  match r with
  | Ok a => ret a
  | Throw e => throw e
  end.

(** [createCFFile(functionName, resources)]. [0o700] is 448. The write
    itself is asynchronous: the call is recorded, its completion is not
    part of the synchronous run. *)
Definition createCFFile (this : ServerlessResourcesEnv) (functionName : string)
    (resources : Js.obj string) : M unit :=
  let path := getEnvDirectory this in
  fileName <- lift_result (getEnvFileName this functionName) ;;
  pathExists <- lift_exists path ;;
  (if negb pathExists then lift_mkdir path 448 else ret tt) ;;;
  isDirectory <- lift_isDirectory path ;;
  if negb isDirectory
  then throw (Error ("Expected " ++ path ++ " to be a directory"))
  else
    log ("[serverless-resources-env] Writing "
         ++ Js.of_nat (length (lodash.keys resources))
         ++ " CF resources to " ++ fileName) ;;;
    let fullFileName := path ++ "/" ++ fileName in
    let data := properties resources in
    emit [WriteFile fullFileName data].

(** [updateFunctionEnv(functionName, envVars)]: the request is sent; its
    answer arrives later. *)
Definition updateFunctionEnv (functionName : string) (envVars : Js.obj string) : M unit :=
  emit [UpdateFunctionConfiguration functionName envVars].

(* ================================================================== *)
(** ** The deploy hook *)

(** [resources]: the fetched list folded into an object keyed by
    ["CF_" + LogicalResourceId]; [addResource] is the arrow function
    [(all, item) => { all[`CF_${item.LogicalResourceId}`] = item.PhysicalResourceId; return all; }]. *)
Definition addResource (all : Js.obj string) (item : StackResourceSummary) : Js.obj string :=
  Js.set ("CF_" ++ LogicalResourceId item) (PhysicalResourceId item) all.

Definition resources (StackResources : list StackResourceSummary) : Js.obj string :=
  lodash.reduce StackResources addResource [].

(** [resourceList] of a function: its [env-resources], each prefixed. *)
Definition resourceList (f : FunctionDef) : list string :=
  lodash.map (Js.and_then (function_custom f) env_resources)
    (fun resource => "CF_" ++ resource).

(** [thisFunctionsResources] *)
Definition thisFunctionsResources (resources : Js.obj string) (f : FunctionDef)
    : Js.obj string :=
  lodash.pick resources (resourceList f).

(** [notFoundList] *)
Definition notFoundList (resources : Js.obj string) (f : FunctionDef) : list string :=
  lodash.difference (resourceList f) (lodash.keys (thisFunctionsResources resources f)).

(** [thisFunctionEnv] *)
Definition thisFunctionEnv (this : ServerlessResourcesEnv) (resources : Js.obj string)
    (f : FunctionDef) : Js.obj string :=
  lodash.extend []
    [ Some (thisFunctionsResources resources f);
      Some (match provider_environment (provider (service (serverless this))) with
            | Some environment => environment
            | None => []
            end);
      function_environment f ].

(** The warning written when [notFoundList] is not empty. *)
Definition warning (functionName : string) (notFound : list string) : string :=
  "[serverless-resources-env] WARNING: Could not find cloud formation resources for "
  ++ functionName ++ "." ++ "Could not find: " ++ lodash.join notFound.

Fixpoint mapM {A B} (f : A -> M B) (l : list A) : M (list B) :=
  match l with
  | [] => ret []
  | a :: l' =>
      b <- f a ;;
      bs <- mapM f l' ;;
      ret (b :: bs)
  end.

(** The arrow function mapped over the function names in [afterDeploy].
    [_.join] of the picked object (a plain object has no [length]) is the
    empty string. The function is anonymous and only ever applied to the
    names [_.keys] lists, which are own keys of [functions]. *)
Definition updateFunction (this : ServerlessResourcesEnv) (stackName : string)
    (resources : Js.obj string) (functionName : string) : M unit :=
  let awsFunctionName := stackName ++ "-" ++ functionName in
  match Js.get functionName (functions (service (serverless this))) with
  | None => throw (TypeError "Cannot read property 'custom' of undefined")
  | Some f =>
      let picked := thisFunctionsResources resources f in
      let notFound := notFoundList resources f in
      let env := thisFunctionEnv this resources f in
      (if (0 <? length notFound)%nat
       then log (warning functionName notFound)
       else ret tt) ;;;
      (if (length (lodash.keys picked) =? 0)%nat
       then log ("[serverless-resources-env] No env resources configured for "
                 ++ functionName ++ ". Clearing env vars")
       else log ("[serverless-resources-env] Setting env vars for "
                 ++ functionName ++ ". " ++ "")) ;;;
      updateFunctionEnv awsFunctionName env ;;;
      createCFFile this functionName picked
  end.

(** How the promise returned by [afterDeploy] stands once the synchronous
    work is done. A throw inside the [then] callback (the [Throw] of the
    monad) rejects it. *)
Inductive Completion :=
| FetchRejected (reason : Exn)
| FetchPending
| AllOf (updatePromises : nat).

(** [afterDeploy()] *)
Definition afterDeploy (this : ServerlessResourcesEnv) (responses : list Callback)
    : M Completion :=
  let stackName := getStackName this in
  let (events, fetched) := fetchCFResources this responses in
  emit events ;;;
  match fetched with
  | Rejected reason => ret (FetchRejected reason)
  | Pending => ret FetchPending
  | Resolved resourceResult =>
      let resources := resources (StackResources resourceResult) in
      updatePromises <-
        mapM (updateFunction this stackName resources)
             (lodash.keys (functions (service (serverless this)))) ;;
      ret (AllOf (length updatePromises))
  end.

End Plugin.

(* ================================================================== *)
(** ** An in-memory file system and the configurations of the test suite

    [MemFS] stands where the test suite puts its stubs for [fs]: a table
    from paths to what is there. *)

Inductive Node :=
| Directory (mode : N)
| RegularFile.

Definition MemFS : Type := Js.obj Node.

#[export] Instance MemFS_FileSystem : FileSystem MemFS := {
  existsSync path fs := Js.has path fs;
  mkdirSync path mode fs :=
    if Js.has path fs then inl (Raised "EEXIST")
    else inr (Js.set path (Directory mode) fs);
  statSync_isDirectory path fs :=
    match Js.get path fs with
    | Some (Directory _) => inr true
    | Some RegularFile => inr false
    | None => inl (Raised "ENOENT")
    end
}.

Definition noCustom : FunctionDef :=
  {| function_custom := None; function_environment := None |}.

Definition wants (names : list string) : FunctionDef :=
  {| function_custom :=
       Some {| env_resources := Some names; function_resource_output_file := None |};
     function_environment := None |}.

(** [serverlessStub] of the test suite, with the functions given. *)
Definition stub (fs : Js.obj FunctionDef) : ServerlessResourcesEnv :=
  {| serverless :=
       {| config := {| servicePath := "."; config_stage := None; config_region := None |};
          service :=
            {| service_name := "unit-test-service";
               provider := {| provider_stage := None; provider_region := None;
                              provider_environment := None |};
               functions := fs;
               service_custom := None |} |};
     options := Some {| opt_stage := None; opt_region := None; opt_function := None |} |}.

(** The functions and the resources of the [afterDeploy] test. *)
Definition testFunctions : Js.obj FunctionDef :=
  [ ("function1", wants ["a"; "b"; "c"]);
    ("function2", wants ["a"; "b"; "c"]);
    ("function3", noCustom);
    ("function4", wants ["unknown"]) ].

Definition testResources : list StackResourceSummary :=
  [ {| LogicalResourceId := "a"; PhysicalResourceId := "1" |};
    {| LogicalResourceId := "b"; PhysicalResourceId := "2" |};
    {| LogicalResourceId := "c"; PhysicalResourceId := "3" |} ].

(* ================================================================== *)
(** ** Reading a trace, and the file format in the words of the design *)

(** The page requests of a trace, in order: stack name and token. *)
Definition requests (events : list Event) : list (string * option string) :=
  flat_map (fun e => match e with
                     | ListStackResources name token => [(name, token)]
                     | _ => []
                     end) events.

(** The environment publish calls of a trace: remote name and variables. *)
Definition updates (events : list Event) : list (string * Js.obj string) :=
  flat_map (fun e => match e with
                     | UpdateFunctionConfiguration name vars => [(name, vars)]
                     | _ => []
                     end) events.

(** The file writes of a trace: file name and content. *)
Definition writes (events : list Event) : list (string * string) :=
  flat_map (fun e => match e with
                     | WriteFile file data => [(file, data)]
                     | _ => []
                     end) events.

(** The directories created in a trace. *)
Definition mkdirs (events : list Event) : list (string * N) :=
  flat_map (fun e => match e with
                     | MkdirSync path mode => [(path, mode)]
                     | _ => []
                     end) events.

(** The messages logged in a trace. *)
Definition logged (events : list Event) : list string :=
  flat_map (fun e => match e with
                     | Log message => [message]
                     | _ => []
                     end) events.

(** One line [KEY=VALUE\n] per entry, in the order of the entries. *)
Fixpoint lines (entries : list (string * string)) : string :=
  match entries with
  | [] => ""
  | (key, value) :: rest => key ++ "=" ++ value ++ Js.nl ++ lines rest
  end.

(** A page that carries a continuation token. *)
Definition tokenPage (p : list StackResourceSummary * string) : Callback :=
  CbPage {| StackResourceSummaries := fst p; NextToken := Some (snd p) |}.

(** The last page: no token. *)
Definition lastPage (summaries : list StackResourceSummary) : Callback :=
  CbPage {| StackResourceSummaries := summaries; NextToken := None |}.

(** A service with one function [hello] that asks for [testTopic1], under a
    provider that sets [LOG_LEVEL] for every function. *)
Definition helloService : ServerlessResourcesEnv :=
  {| serverless :=
       {| config := {| servicePath := "."; config_stage := None; config_region := None |};
          service :=
            {| service_name := "svc";
               provider := {| provider_stage := None; provider_region := None;
                              provider_environment := Some [("LOG_LEVEL", "debug")] |};
               functions := [("hello", wants ["testTopic1"])];
               service_custom := None |} |};
     options := None |}.

Definition helloResponses : list Callback :=
  [ lastPage [ {| LogicalResourceId := "testTopic1"; PhysicalResourceId := "arn:topic1" |} ] ].

(* ================================================================== *)
(** ** The local invocation hook *)

(** What [beforeLocalInvoke] does to the outside: the line it logs and the
    [path] it hands to [dotenv.config]. *)
Record LocalInvoke := {
  invoke_logged : string;
  dotenv_path : string
}.

(** [beforeLocalInvoke()]. Reading [this.options.function] throws when
    there are no options; an absent [function] option is the property name
    ["undefined"] in [functions[functionName]] and in the template literal.
    A throw of [getEnvFileName] comes before the log and the [dotenv]
    call. *)
Definition beforeLocalInvoke (this : ServerlessResourcesEnv) : Result LocalInvoke :=
  match options this with
  | None => Throw (TypeError "Cannot read property 'function' of undefined")
  | Some o =>
      let functionName :=
        match opt_function o with Some name => name | None => "undefined" end in
      match getEnvFileName this functionName with
      | Throw e => Throw e
      | Ok fileName =>
          let path := getEnvDirectory this in
          let fullPath := path ++ "/" ++ fileName in
          Ok {| invoke_logged :=
                  "[serverless-resources-env] Pulling in env variables from " ++ fullPath;
                dotenv_path := fullPath |}
      end
  end.

(** [helloService] as [serverless invoke local -f hello] sees it. *)
Definition helloInvoke : ServerlessResourcesEnv :=
  {| serverless := serverless helloService;
     options := Some {| opt_stage := None; opt_region := None;
                        opt_function := Some "hello" |} |}.

(* ================================================================== *)
(** ** The first revision of the plugin

    The class as [src/index.js] has it first: one [describeStackResources]
    call, one file for the whole stack, and every function given every
    resource. Nothing here touches the file system synchronously, so a run
    is just its trace. [getStage] and [getStackName] are the same code. *)

Module Revision1.

(** [this], with the one configuration entry this revision reads besides
    those of the later one: [resource_output_file] is the value of
    [service.custom && service.custom['resource-output-file']]. *)
Record Plugin := {
  plugin : ServerlessResourcesEnv;
  resource_output_file : option string
}.

Inductive Event :=
| Log (message : string)
| DescribeStackResources (StackName : string)
| UpdateFunctionConfiguration (FunctionName : string) (Variables : Js.obj string)
| WriteFile (file : string) (data : string).

(** [fetchCFResources()]: the promisified call settles as the service
    answers, rejected with [err] ([inl]) or resolved with the result
    ([inr]). *)
Definition fetchCFResources (this : Plugin) (response : Exn + ResourceResult)
    : list Event * (Exn + ResourceResult) :=
  let stackName := getStackName (plugin this) in
  ([ Log ("[serverless-resources-env] Looking up resources for CF Named: " ++ stackName);
     DescribeStackResources stackName ],
   response).

(** [createCFFile(resources)] *)
Definition createCFFile (this : Plugin) (resources : Js.obj string) : list Event :=
  let stage := getStage (plugin this) in
  let fileName := Js.or_else (resource_output_file this) ("." ++ stage ++ "-env") in
  let fullFileName := servicePath (config (serverless (plugin this))) ++ "/" ++ fileName in
  let data := properties resources in
  [ Log ("[serverless-resources-env] Writing "
         ++ Js.of_nat (length (lodash.keys resources))
         ++ " CF resources to " ++ fileName);
    WriteFile fullFileName data ].

(** [updateFuctionEnv(functionName, envVars)] *)
Definition updateFuctionEnv (functionName : string) (envVars : Js.obj string) : list Event :=
  [ Log ("[serverless-resources-env] Setting env vars for " ++ functionName);
    UpdateFunctionConfiguration functionName envVars ].

(** How the promise returned by [afterDeploy] stands: rejected with the
    fetch, or [Promise.all(updatePromises)]. *)
Inductive Completion :=
| FetchRejected (reason : Exn)
| AllOf (updatePromises : nat).

(** [afterDeploy()] *)
Definition afterDeploy (this : Plugin) (response : Exn + ResourceResult)
    : list Event * Completion :=
  let stackName := getStackName (plugin this) in
  let (events, fetched) := fetchCFResources this response in
  match fetched with
  | inr resourceResult =>
      let resources := resources (StackResources resourceResult) in
      let names := lodash.keys (functions (service (serverless (plugin this)))) in
      ((events
        ++ createCFFile this resources
        ++ flat_map (fun functionName =>
                       let awsFunctionName := (stackName ++ "-" ++ functionName)%string in
                       updateFuctionEnv awsFunctionName resources) names)%list,
       AllOf (length names))
  | inl reason => (events, FetchRejected reason)
  end.

(** The publish calls and the file writes of a trace. *)
Definition updates (events : list Event) : list (string * Js.obj string) :=
  flat_map (fun e => match e with
                     | UpdateFunctionConfiguration name vars => [(name, vars)]
                     | _ => []
                     end) events.

Definition writes (events : list Event) : list (string * string) :=
  flat_map (fun e => match e with
                     | WriteFile file data => [(file, data)]
                     | _ => []
                     end) events.

End Revision1.

(* ================================================================== *)
(** ** Facts about objects and the lodash helpers *)

Module JsFacts.
Import Js.

Section Obj.
Context {V : Type}.
Implicit Types (o : obj V) (k : string) (v : V).

Lemma get_set k k' v o :
  get k (set k' v o) = if k' =? k then Some v else get k o.
Proof.
  induction o as [|[k0 v0] o IH]; simpl.
  - destruct (k' =? k); reflexivity.
  - destruct (k0 =? k') eqn:E0; simpl.
    + apply String.eqb_eq in E0; subst k0.
      destruct (k' =? k); reflexivity.
    + rewrite IH. destruct (k0 =? k) eqn:E1; [|reflexivity].
      apply String.eqb_eq in E1; subst k0. rewrite String.eqb_sym, E0. reflexivity.
Qed.

Lemma get_set_same k v o : get k (set k v o) = Some v.
Proof. rewrite get_set, String.eqb_refl. reflexivity. Qed.

Lemma get_set_other k k' v o : k' <> k -> get k (set k' v o) = get k o.
Proof. intros N. rewrite get_set. apply String.eqb_neq in N. rewrite N. reflexivity. Qed.

Lemma get_None_iff k o : get k o = None <-> ~ In k (List.map fst o).
Proof.
  induction o as [|[k0 v0] o IH]; simpl.
  - tauto.
  - destruct (k0 =? k) eqn:E.
    + apply String.eqb_eq in E. split; [discriminate | intros N; exfalso; auto].
    + apply String.eqb_neq in E. rewrite IH. tauto.
Qed.

Lemma get_Some_In k v o : get k o = Some v -> In (k, v) o.
Proof.
  induction o as [|[k0 v0] o IH]; simpl; [discriminate|].
  destruct (k0 =? k) eqn:E.
  - apply String.eqb_eq in E. intros [= ->]. subst. auto.
  - auto.
Qed.

Lemma In_get_NoDup k v o :
  NoDup (List.map fst o) -> In (k, v) o -> get k o = Some v.
Proof.
  induction o as [|[k0 v0] o IH]; simpl; [tauto|].
  intros ND [E|I].
  - injection E as -> ->. rewrite String.eqb_refl. reflexivity.
  - inversion ND as [|? ? NI ND']; subst.
    destruct (k0 =? k) eqn:E.
    + apply String.eqb_eq in E; subst k0. exfalso. apply NI.
      apply (in_map fst) in I. exact I.
    + auto.
Qed.

Lemma keys_set k v o :
  List.map fst (set k v o) =
    if has k o then List.map fst o else (List.map fst o ++ [k])%list.
Proof.
  unfold has. induction o as [|[k0 v0] o IH]; simpl; [reflexivity|].
  destruct (k0 =? k) eqn:E; simpl.
  - apply String.eqb_eq in E; subst. reflexivity.
  - rewrite IH. destruct (get k o); reflexivity.
Qed.

Lemma In_keys_set x k v o :
  In x (List.map fst (set k v o)) <-> x = k \/ In x (List.map fst o).
Proof.
  rewrite keys_set. unfold has. destruct (get k o) eqn:G.
  - split; [tauto|]. intros [->|I]; [|exact I].
    apply get_Some_In in G. apply (in_map fst) in G. exact G.
  - rewrite in_app_iff. simpl. intuition congruence.
Qed.

Lemma NoDup_set k v o :
  NoDup (List.map fst o) -> NoDup (List.map fst (set k v o)).
Proof.
  intros ND. rewrite keys_set. unfold has. destruct (get k o) eqn:G; [exact ND|].
  apply get_None_iff in G.
  apply NoDup_app; [exact ND | repeat constructor; simpl; tauto |].
  intros x I [<-|[]]. tauto.
Qed.

End Obj.

(** *** Enumeration order *)

Lemma In_insert_sorted x k ks : In x (insert_sorted k ks) <-> x = k \/ In x ks.
Proof.
  induction ks as [|k' ks IH]; simpl.
  - intuition congruence.
  - destruct (index_le k k'); simpl; rewrite ?IH; intuition congruence.
Qed.

Lemma In_sort_indices x ks : In x (sort_indices ks) <-> In x ks.
Proof.
  unfold sort_indices. induction ks as [|k ks IH]; simpl; [tauto|].
  rewrite In_insert_sorted, IH. intuition congruence.
Qed.

Lemma In_own_keys {V} x (o : obj V) : In x (own_keys o) <-> In x (List.map fst o).
Proof.
  unfold own_keys. rewrite in_app_iff, In_sort_indices, !filter_In.
  destruct (is_index x); simpl; intuition congruence.
Qed.

(** When no key is an array index the enumeration is the creation order. *)
Lemma own_keys_plain {V} (o : obj V) :
  (forall k, In k (List.map fst o) -> is_index k = false) ->
  own_keys o = List.map fst o.
Proof.
  unfold own_keys. generalize (List.map fst o) as ks. intros ks P.
  assert (filter is_index ks = [] /\ filter (fun k => negb (is_index k)) ks = ks) as [-> ->].
  { induction ks as [|k ks IH]; [split; reflexivity|].
    simpl. rewrite (P k (or_introl eq_refl)). simpl.
    destruct IH as [-> ->]; [|split; reflexivity].
    intros; apply P; right; assumption. }
  reflexivity.
Qed.

(** A key that starts with [CF_] is no array index. *)
Lemma is_index_CF x : is_index ("CF_" ++ x) = false.
Proof. reflexivity. Qed.

Lemma CF_inj a b : "CF_" ++ a = "CF_" ++ b -> a = b.
Proof. simpl. intros [= E]. exact E. Qed.

End JsFacts.

Module lodashFacts.
Import Js JsFacts.

Section Obj.
Context {V : Type}.
Implicit Types (o object source from acc : obj V) (k : string) (v : V).

(** The step shared by [_.pick] and [_.extend]: copy [from[k]] when present. *)
Lemma get_copy_not_listed from ks k acc :
  ~ In k ks ->
  get k (fold_left (fun r x => match get x from with Some v => set x v r | None => r end) ks acc)
  = get k acc.
Proof.
  revert acc. induction ks as [|x ks IH]; intros acc N; simpl; [reflexivity|].
  simpl in N. rewrite IH by tauto.
  destruct (get x from); [|reflexivity].
  apply get_set_other. intros ->. tauto.
Qed.

Lemma get_copy_listed from ks k acc :
  In k ks ->
  get k (fold_left (fun r x => match get x from with Some v => set x v r | None => r end) ks acc)
  = match get k from with Some v => Some v | None => get k acc end.
Proof.
  revert acc. induction ks as [|x ks IH]; intros acc I; simpl; [destruct I|].
  destruct (in_dec string_dec k ks) as [I'|N].
  - rewrite IH by exact I'. destruct (get k from) eqn:G; [reflexivity|].
    destruct (get x from) eqn:Gx; [|reflexivity].
    apply get_set_other. intros ->. congruence.
  - rewrite get_copy_not_listed by exact N.
    destruct I as [->|I]; [|tauto].
    destruct (get k from); [apply get_set_same | reflexivity].
Qed.

Lemma In_keys_copy from ks k acc :
  In k (List.map fst
     (fold_left (fun r x => match get x from with Some v => set x v r | None => r end) ks acc))
  -> In k ks \/ In k (List.map fst acc).
Proof.
  revert acc. induction ks as [|x ks IH]; intros acc; simpl; [tauto|].
  intros I. apply IH in I. destruct I as [I|I]; [tauto|].
  destruct (get x from); [|tauto].
  apply In_keys_set in I. intuition.
Qed.

Lemma NoDup_copy from ks acc :
  NoDup (List.map fst acc) ->
  NoDup (List.map fst
     (fold_left (fun r x => match get x from with Some v => set x v r | None => r end) ks acc)).
Proof.
  revert acc. induction ks as [|x ks IH]; intros acc ND; simpl; [exact ND|].
  apply IH. destruct (get x from); [apply NoDup_set|]; exact ND.
Qed.

(** [_.pick]: a listed key has the value it has in [object]; no other key
    is there. *)
Lemma get_pick object props k :
  get k (lodash.pick object props) = if in_dec string_dec k props then get k object else None.
Proof.
  unfold lodash.pick. destruct (in_dec string_dec k props) as [I|N].
  - rewrite get_copy_listed by exact I. destruct (get k object); reflexivity.
  - rewrite get_copy_not_listed by exact N. reflexivity.
Qed.

Lemma In_keys_pick object props k :
  In k (List.map fst (lodash.pick object props)) -> In k props.
Proof. intros I. apply In_keys_copy in I. simpl in I. tauto. Qed.

Lemma NoDup_pick object props : NoDup (List.map fst (lodash.pick object props)).
Proof. apply NoDup_copy. constructor. Qed.

(** [_.extend], one source: the source wins on every key it has. *)
Lemma get_assign object source k :
  get k (lodash.assign object source)
  = match get k source with Some v => Some v | None => get k object end.
Proof.
  unfold lodash.assign, lodash.keys.
  destruct (get k source) eqn:G.
  - rewrite get_copy_listed, G; [reflexivity|].
    apply In_own_keys. apply get_Some_In in G. apply (in_map fst) in G. exact G.
  - rewrite get_copy_not_listed; [reflexivity|].
    rewrite In_own_keys. apply get_None_iff. exact G.
Qed.

End Obj.

Lemma In_difference x array values :
  In x (lodash.difference array values) <-> In x array /\ ~ In x values.
Proof.
  unfold lodash.difference. rewrite filter_In, negb_true_iff.
  split; intros [I E]; split; try exact I.
  - intros J. assert (existsb (String.eqb x) values = true) as T; [|congruence].
    apply existsb_exists. exists x. split; [exact J | apply String.eqb_refl].
  - destruct (existsb (String.eqb x) values) eqn:T; [|reflexivity].
    apply existsb_exists in T. destruct T as [y [J Y]].
    apply String.eqb_eq in Y. subst y. tauto.
Qed.

End lodashFacts.

(* ================================================================== *)
(** ** Stage, region, stack name and file location *)

(** The cases of the test suite for [getStage], [getRegion] and
    [getStackName]. *)
Example getStage_default : getStage (stub []) = "dev".
Proof. reflexivity. Qed.

Example getRegion_default : getRegion (stub []) = "us-east-1".
Proof. reflexivity. Qed.

Example getStage_option_preempts :
  getStage
    {| serverless :=
         {| config := {| servicePath := "."; config_stage := Some "from_config";
                         config_region := None |};
            service := {| service_name := "a_service";
                          provider := {| provider_stage := Some "from_provider";
                                         provider_region := None;
                                         provider_environment := None |};
                          functions := []; service_custom := None |} |};
       options := Some {| opt_stage := Some "from_option"; opt_region := None;
                          opt_function := None |} |}
  = "from_option".
Proof. reflexivity. Qed.

(** C6: [getStage] and [getRegion] always return a string, the first one
    set among the command line option, the cached configuration value and
    the provider setting, and otherwise ["dev"] (stage) or ["us-east-1"]
    (region); [getStackName] is the service name, ["-"], and that stage. *)
Theorem stage_region_precedence (this : ServerlessResourcesEnv) :
  getStage this
    = first_set [ Js.and_then (options this) opt_stage;
                  config_stage (config (serverless this));
                  provider_stage (provider (service (serverless this))) ] "dev"
  /\ getRegion this
    = first_set [ Js.and_then (options this) opt_region;
                  config_region (config (serverless this));
                  provider_region (provider (service (serverless this))) ] "us-east-1"
  /\ getStackName this
    = service_name (service (serverless this)) ++ "-"
      ++ first_set [ Js.and_then (options this) opt_stage;
                     config_stage (config (serverless this));
                     provider_stage (provider (service (serverless this))) ] "dev".
Proof.
  assert (forall a b c d,
            match Js.truthy_value a with
            | Some x => x
            | None => match Js.truthy_value b with
                      | Some x => x
                      | None => match Js.truthy_value c with
                                | Some x => x
                                | None => d
                                end
                      end
            end = first_set [a; b; c] d) as chain.
  { intros a b c d. unfold Js.truthy_value. simpl.
    destruct a as [a|]; [destruct (a =? "")|];
      (destruct b as [b|]; [destruct (b =? "")|]);
      (destruct c as [c|]; [destruct (c =? "")|]); reflexivity. }
  unfold getStackName, getStage, getRegion.
  rewrite !chain. repeat split.
Qed.

(** C7: for a declared function the file name is its
    [resource-output-file] when that is set and otherwise
    ["." + region + "_" + stage + "_" + functionName]; the directory is the
    service's [resource-output-dir] when that is set and otherwise
    [".serverless-resources-env"], under the service path. *)
Theorem env_file_location (this : ServerlessResourcesEnv) (functionName : string)
    (f : FunctionDef) :
  Js.get functionName (functions (service (serverless this))) = Some f ->
  (forall name,
      Js.and_then (function_custom f) function_resource_output_file = Some name ->
      name <> "" ->
      getEnvFileName this functionName = Ok name)
  /\ (Js.truthy (Js.and_then (function_custom f) function_resource_output_file) = false ->
      getEnvFileName this functionName
      = Ok ("." ++ getRegion this ++ "_" ++ getStage this ++ "_" ++ functionName))
  /\ (forall dir,
      Js.and_then (service_custom (service (serverless this))) resource_output_dir = Some dir ->
      dir <> "" ->
      getEnvDirectory this = servicePath (config (serverless this)) ++ "/" ++ dir)
  /\ (Js.truthy (Js.and_then (service_custom (service (serverless this))) resource_output_dir)
      = false ->
      getEnvDirectory this
      = servicePath (config (serverless this)) ++ "/" ++ ".serverless-resources-env").
Proof.
  intros G. unfold getEnvFileName, getEnvDirectory. rewrite G.
  repeat split.
  - intros name -> N. apply String.eqb_neq in N. simpl. rewrite N. reflexivity.
  - destruct (Js.and_then (function_custom f) function_resource_output_file) as [s|];
      simpl; [|reflexivity].
    destruct (s =? ""); [reflexivity | discriminate].
  - intros dir -> N. apply String.eqb_neq in N. simpl. rewrite N. reflexivity.
  - destruct (Js.and_then (service_custom (service (serverless this))) resource_output_dir)
      as [s|]; simpl; [|reflexivity].
    destruct (s =? ""); [reflexivity | discriminate].
Qed.

(** With region [us-east-1], stage [dev], function [hello] and no override
    the file is [.serverless-resources-env/.us-east-1_dev_hello] under the
    service path. *)
Lemma env_file_location_hello :
  getEnvFileName helloService "hello" = Ok ".us-east-1_dev_hello"
  /\ getEnvDirectory helloService = "./.serverless-resources-env".
Proof.
  destruct (env_file_location helloService "hello" (wants ["testTopic1"]) eq_refl)
    as (_ & name & _ & dir).
  split; [apply name | apply dir]; reflexivity.
Defined.

(* ================================================================== *)
(** ** The resource map *)

Section ResourceMap.
Import Js JsFacts.

Lemma resources_app l1 l2 :
  resources (l1 ++ l2) = fold_left addResource l2 (resources l1).
Proof. unfold resources, lodash.reduce. apply fold_left_app. Qed.

Lemma get_fold_step_other k l acc :
  (forall r, In r l -> LogicalResourceId r <> k) ->
  get ("CF_" ++ k) (fold_left addResource l acc) = get ("CF_" ++ k) acc.
Proof.
  revert acc. induction l as [|r l IH]; intros acc D; [reflexivity|].
  cbn [fold_left]. unfold addResource at 2. rewrite IH by (intros; apply D; right; assumption).
  apply get_set_other. intros E. apply CF_inj in E.
  apply (D r); [left; reflexivity | exact E].
Qed.

Lemma NoDup_fold_step l acc :
  NoDup (List.map fst acc) -> NoDup (List.map fst (fold_left addResource l acc)).
Proof.
  revert acc. induction l as [|r l IH]; intros acc ND; [exact ND|].
  cbn [fold_left]. unfold addResource at 2. apply IH, NoDup_set, ND.
Qed.

Lemma keys_fold_step_plain l acc :
  (forall k, In k (List.map fst acc) -> is_index k = false) ->
  forall k, In k (List.map fst (fold_left addResource l acc)) -> is_index k = false.
Proof.
  revert acc. induction l as [|r l IH]; intros acc P; [exact P|].
  cbn [fold_left]. unfold addResource at 2. apply IH. intros k I. apply In_keys_set in I.
  destruct I as [->|I]; [apply is_index_CF | apply P, I].
Qed.

Lemma keys_resources l : lodash.keys (resources l) = List.map fst (resources l).
Proof.
  apply own_keys_plain, keys_fold_step_plain. intros k [].
Qed.

Lemma NoDup_resources l : NoDup (List.map fst (resources l)).
Proof. apply NoDup_fold_step. constructor. Qed.

(** The mapping of the design: one resource gives one prefixed key. *)
Example resources_single :
  resources [ {| LogicalResourceId := "a"; PhysicalResourceId := "1" |} ] = [("CF_a", "1")].
Proof. reflexivity. Qed.

(** C9: when a logical id occurs several times in the fetched list, the
    resource map has exactly one key ["CF_" + id], and its value is the
    physical id of the last entry with that logical id. *)
Theorem duplicate_logical_id_last_wins
    (before after : list StackResourceSummary) (last : StackResourceSummary) :
  (forall r, In r after -> LogicalResourceId r <> LogicalResourceId last) ->
  get ("CF_" ++ LogicalResourceId last) (resources (before ++ last :: after))
    = Some (PhysicalResourceId last)
  /\ count_occ string_dec (lodash.keys (resources (before ++ last :: after)))
       ("CF_" ++ LogicalResourceId last) = 1.
Proof.
  intros D.
  assert (get ("CF_" ++ LogicalResourceId last) (resources (before ++ last :: after))
          = Some (PhysicalResourceId last)) as G.
  { rewrite resources_app. cbn [fold_left]. unfold addResource at 2.
    rewrite get_fold_step_other by exact D.
    apply get_set_same. }
  split; [exact G|].
  rewrite keys_resources.
  apply NoDup_count_occ'; [apply NoDup_resources|].
  apply get_Some_In in G. apply (in_map fst) in G. exact G.
Qed.

Lemma duplicate_logical_id_last_wins_witness :
  get "CF_a"
    (resources [ {| LogicalResourceId := "a"; PhysicalResourceId := "1" |};
                 {| LogicalResourceId := "a"; PhysicalResourceId := "2" |};
                 {| LogicalResourceId := "b"; PhysicalResourceId := "3" |} ])
    = Some "2"
  /\ count_occ string_dec
       (lodash.keys
          (resources [ {| LogicalResourceId := "a"; PhysicalResourceId := "1" |};
                       {| LogicalResourceId := "a"; PhysicalResourceId := "2" |};
                       {| LogicalResourceId := "b"; PhysicalResourceId := "3" |} ]))
       "CF_a" = 1.
Proof.
  apply (duplicate_logical_id_last_wins
           [ {| LogicalResourceId := "a"; PhysicalResourceId := "1" |} ]
           [ {| LogicalResourceId := "b"; PhysicalResourceId := "3" |} ]
           {| LogicalResourceId := "a"; PhysicalResourceId := "2" |}).
  intros r [<-|[]]. simpl. discriminate.
Defined.

End ResourceMap.

(* ================================================================== *)
(** ** The per-function environment *)

(** C2: every key of the resolved environment of a function has the value
    of the function's own [environment] when that has the key, else the
    value of the provider's [environment] when that has the key, else the
    value among the matched resources; later layers replace earlier ones. *)
Theorem thisFunctionEnv_layers (this : ServerlessResourcesEnv)
    (resourceMap : Js.obj string) (f : FunctionDef) (key : string) :
  Js.get key (thisFunctionEnv this resourceMap f)
  = match Js.and_then (function_environment f) (Js.get key) with
    | Some value => Some value
    | None =>
        match Js.and_then (provider_environment (provider (service (serverless this))))
                (Js.get key) with
        | Some value => Some value
        | None => Js.get key (thisFunctionsResources resourceMap f)
        end
    end.
Proof.
  unfold thisFunctionEnv, lodash.extend. cbn [fold_left].
  destruct (function_environment f) as [fenv|]; cbn [Js.and_then];
    rewrite ?lodashFacts.get_assign;
    destruct (provider_environment (provider (service (serverless this)))) as [penv|];
    cbn [Js.and_then]; rewrite ?lodashFacts.get_assign; cbn [Js.get];
    repeat match goal with |- context [match ?x with _ => _ end] => destruct x end;
    reflexivity.
Qed.

(** The precedence example of the design: the provider default replaces
    the matched [CF_a], the function's own value replaces the default
    [CF_b]. *)
Example thisFunctionEnv_precedence :
  thisFunctionEnv
    {| serverless :=
         {| config := {| servicePath := "."; config_stage := None; config_region := None |};
            service :=
              {| service_name := "svc";
                 provider := {| provider_stage := None; provider_region := None;
                                provider_environment :=
                                  Some [("CF_a", "default"); ("CF_b", "2")] |};
                 functions := []; service_custom := None |} |};
       options := None |}
    [("CF_a", "1")]
    {| function_custom :=
         Some {| env_resources := Some ["a"]; function_resource_output_file := None |};
       function_environment := Some [("CF_b", "override")] |}
  = [("CF_a", "default"); ("CF_b", "override")].
Proof. reflexivity. Qed.

(* ================================================================== *)
(** ** Paged fetch *)

Lemma fetch_pages_resolves stackName pages last token acc :
  snd (fetchCFResourcesPages stackName token acc (List.map tokenPage pages ++ [lastPage last]))
    = Resolved {| StackResources := (acc ++ concat (List.map fst pages) ++ last)%list |}
  /\ requests (fst (fetchCFResourcesPages stackName token acc
                      (List.map tokenPage pages ++ [lastPage last])))
    = (stackName, token) :: List.map (fun p => (stackName, Some (snd p))) pages.
Proof.
  revert token acc. induction pages as [|[summaries next] pages IH]; intros token acc.
  - split; reflexivity.
  - cbn [List.map app tokenPage fst snd fetchCFResourcesPages NextToken StackResourceSummaries].
    specialize (IH (Some next) (acc ++ summaries)%list).
    destruct (fetchCFResourcesPages stackName (Some next) (acc ++ summaries)
                (List.map tokenPage pages ++ [lastPage last])) as [events promise].
    cbn [fst snd] in *. destruct IH as [-> R]. split.
    + cbn [concat]. rewrite <- !app_assoc. reflexivity.
    + change (requests (ListStackResources stackName token
                  :: Log "[serverless-resources-env] Getting next Resources page" :: events))
        with ((stackName, token) :: requests events).
      rewrite R. reflexivity.
Qed.

Lemma fetch_pages_rejects stackName pages err later token acc :
  snd (fetchCFResourcesPages stackName token acc
         (List.map tokenPage pages ++ CbErr err :: later))
    = Rejected err.
Proof.
  revert token acc. induction pages as [|[summaries next] pages IH]; intros token acc.
  - reflexivity.
  - cbn [List.map app tokenPage fst snd fetchCFResourcesPages NextToken StackResourceSummaries].
    specialize (IH (Some next) (acc ++ summaries)%list).
    destruct (fetchCFResourcesPages stackName (Some next) (acc ++ summaries)
                (List.map tokenPage pages ++ CbErr err :: later)) as [events promise].
    exact IH.
Qed.

Lemma fetch_pages_rejects_requests stackName pages err later token acc :
  requests (fst (fetchCFResourcesPages stackName token acc
                   (List.map tokenPage pages ++ CbErr err :: later)))
  = (stackName, token) :: List.map (fun p => (stackName, Some (snd p))) pages.
Proof.
  revert token acc. induction pages as [|[summaries next] pages IH]; intros token acc.
  - reflexivity.
  - cbn [List.map app tokenPage fst snd fetchCFResourcesPages NextToken StackResourceSummaries].
    specialize (IH (Some next) (acc ++ summaries)%list).
    destruct (fetchCFResourcesPages stackName (Some next) (acc ++ summaries)
                (List.map tokenPage pages ++ CbErr err :: later)) as [events promise].
    cbn [fst] in *.
    change (requests (ListStackResources stackName token
                  :: Log "[serverless-resources-env] Getting next Resources page" :: events))
      with ((stackName, token) :: requests events).
    rewrite IH. reflexivity.
Qed.

(** The fetch only logs and lists: it publishes nothing and touches no file. *)
Lemma fetch_pages_quiet stackName token acc responses :
  updates (fst (fetchCFResourcesPages stackName token acc responses)) = []
  /\ writes (fst (fetchCFResourcesPages stackName token acc responses)) = []
  /\ mkdirs (fst (fetchCFResourcesPages stackName token acc responses)) = [].
Proof.
  revert token acc. induction responses as [|[err|page] later IH]; intros token acc.
  - repeat split.
  - repeat split.
  - cbn [fetchCFResourcesPages]. destruct (NextToken page) as [next|]; [|repeat split].
    specialize (IH (Some next) (acc ++ StackResourceSummaries page)%list).
    destruct (fetchCFResourcesPages stackName (Some next)
                (acc ++ StackResourceSummaries page) later) as [events promise].
    exact IH.
Qed.

(** C3: when CloudFormation answers with N pages of which all but the last
    carry a continuation token, the fetch sends exactly N requests, the
    first without a token and each later one with the token of the page
    before, and resolves with the pages' resources concatenated in order. *)
Theorem fetch_all_pages (stackName : string)
    (pages : list (list StackResourceSummary * string))
    (last : list StackResourceSummary) :
  snd (fetchCFResourcesPages stackName None [] (List.map tokenPage pages ++ [lastPage last]))
    = Resolved {| StackResources := (concat (List.map fst pages) ++ last)%list |}
  /\ requests (fst (fetchCFResourcesPages stackName None []
                      (List.map tokenPage pages ++ [lastPage last])))
    = (stackName, None) :: List.map (fun p => (stackName, Some (snd p))) pages
  /\ length (requests (fst (fetchCFResourcesPages stackName None []
                              (List.map tokenPage pages ++ [lastPage last]))))
    = length (List.map tokenPage pages ++ [lastPage last]).
Proof.
  destruct (fetch_pages_resolves stackName pages last None []) as [R Q].
  rewrite R, Q. repeat split.
  cbn [length]. rewrite length_app, !length_map. cbn [length]. lia.
Qed.

(* ================================================================== *)
(** ** The properties text *)

Lemma append_assoc (a b c : string) : (a ++ b) ++ c = a ++ b ++ c.
Proof. induction a as [|ch a IH]; simpl; [reflexivity | rewrite IH; reflexivity]. Qed.

Lemma properties_fold (o : Js.obj string) (ks : list string) (acc : string) :
  fold_left
    (fun acc k =>
       match Js.get k o with
       | Some v => acc ++ k ++ "=" ++ v ++ Js.nl
       | None => acc
       end)
    ks acc
  = acc ++ lines (flat_map (fun k => match Js.get k o with
                                     | Some v => [(k, v)]
                                     | None => []
                                     end) ks).
Proof.
  revert acc. induction ks as [|k ks IH]; intros acc; cbn [fold_left flat_map].
  - cbn [lines]. induction acc as [|ch acc IHa]; simpl;
      [reflexivity | rewrite <- IHa; reflexivity].
  - rewrite IH. destruct (Js.get k o) as [v|]; [|reflexivity].
    cbn [app lines]. rewrite !append_assoc. reflexivity.
Qed.

(** The text written is one line per entry, in enumeration order. *)
Lemma properties_lines (o : Js.obj string) : properties o = lines (Js.entries o).
Proof.
  unfold properties, lodash.reduce_obj, lodash.keys, Js.entries.
  apply (properties_fold o (Js.own_keys o) "").
Qed.

(** An object without array-index keys enumerates in creation order. *)
Lemma entries_plain {V} (o : Js.obj V) :
  NoDup (List.map fst o) ->
  (forall k, In k (List.map fst o) -> Js.is_index k = false) ->
  Js.entries o = o.
Proof.
  intros ND P. unfold Js.entries. rewrite (JsFacts.own_keys_plain o P).
  assert (forall part, (forall k v, In (k, v) part -> Js.get k o = Some v) ->
            flat_map (fun k => match Js.get k o with Some v => [(k, v)] | None => [] end)
              (List.map fst part) = part) as Q.
  { induction part as [|[k v] part IH]; intros G; [reflexivity|].
    cbn [List.map fst flat_map]. rewrite (G k v (or_introl eq_refl)).
    rewrite IH by (intros; apply G; right; assumption). reflexivity. }
  apply Q. intros k v I. apply JsFacts.In_get_NoDup; assumption.
Qed.

Lemma resourceList_plain (f : FunctionDef) (k : string) :
  In k (resourceList f) -> Js.is_index k = false.
Proof.
  unfold resourceList, lodash.map.
  destruct (Js.and_then (function_custom f) env_resources) as [l|]; [|intros []].
  intros I. apply in_map_iff in I. destruct I as [x [<- _]]. apply JsFacts.is_index_CF.
Qed.

(** The matched resources of a function enumerate in the order they were
    picked, which is the order of the function's [env-resources]. *)
Lemma keys_thisFunctionsResources (resourceMap : Js.obj string) (f : FunctionDef) :
  lodash.keys (thisFunctionsResources resourceMap f)
  = List.map fst (thisFunctionsResources resourceMap f).
Proof.
  apply JsFacts.own_keys_plain. intros k I.
  apply lodashFacts.In_keys_pick in I. apply (resourceList_plain f k I).
Qed.

Lemma entries_thisFunctionsResources (resourceMap : Js.obj string) (f : FunctionDef) :
  Js.entries (thisFunctionsResources resourceMap f) = thisFunctionsResources resourceMap f.
Proof.
  apply entries_plain.
  - apply lodashFacts.NoDup_pick.
  - intros k I. apply lodashFacts.In_keys_pick in I. apply (resourceList_plain f k I).
Qed.

(* ================================================================== *)
(** ** Running the hook *)

Section Hook.
Context {FS : Type} `{FileSystem FS}.

Lemma updates_app e1 e2 : updates (e1 ++ e2) = (updates e1 ++ updates e2)%list.
Proof. apply flat_map_app. Qed.

Lemma writes_app e1 e2 : writes (e1 ++ e2) = (writes e1 ++ writes e2)%list.
Proof. apply flat_map_app. Qed.

Lemma mkdirs_app e1 e2 : mkdirs (e1 ++ e2) = (mkdirs e1 ++ mkdirs e2)%list.
Proof. apply flat_map_app. Qed.

(** [createCFFile] case by case. *)
Lemma createCFFile_run this functionName fileName resourceMap (fs : FS) :
  getEnvFileName this functionName = Ok fileName ->
  createCFFile this functionName resourceMap fs
  = let path := getEnvDirectory this in
    let written :=
      [ Log ("[serverless-resources-env] Writing "
             ++ Js.of_nat (length (lodash.keys resourceMap))
             ++ " CF resources to " ++ fileName);
        WriteFile (path ++ "/" ++ fileName) (properties resourceMap) ] in
    if existsSync path fs
    then match statSync_isDirectory path fs with
         | inl e => (Throw e, fs, [])
         | inr true => (Ok tt, fs, written)
         | inr false => (Throw (Error ("Expected " ++ path ++ " to be a directory")), fs, [])
         end
    else match mkdirSync path 448 fs with
         | inl e => (Throw e, fs, [MkdirSync path 448])
         | inr fs' =>
             match statSync_isDirectory path fs' with
             | inl e => (Throw e, fs', [MkdirSync path 448])
             | inr true => (Ok tt, fs', MkdirSync path 448 :: written)
             | inr false =>
                 (Throw (Error ("Expected " ++ path ++ " to be a directory")), fs',
                  [MkdirSync path 448])
             end
         end.
Proof.
  intros E. unfold createCFFile. rewrite E.
  unfold bind, lift_result, ret, lift_exists, lift_mkdir, lift_isDirectory, throw, log, emit.
  cbv zeta.
  destruct (existsSync (getEnvDirectory this) fs); cbn [negb].
  - destruct (statSync_isDirectory (getEnvDirectory this) fs) as [e|[|]]; reflexivity.
  - destruct (mkdirSync (getEnvDirectory this) 448 fs) as [e|fs']; [reflexivity|].
    destruct (statSync_isDirectory (getEnvDirectory this) fs') as [e|[|]]; reflexivity.
Qed.

(** C4: when the directory does not exist, the first thing [createCFFile]
    does to the outside is [mkdirSync(path, 0o700)], and once that has made
    a directory the file is written; when the path exists and is not a
    directory, [createCFFile] throws ["Expected <path> to be a directory"]
    with nothing created and no write issued. *)
Theorem createCFFile_directory_safety (this : ServerlessResourcesEnv)
    (functionName fileName : string) (resourceMap : Js.obj string) (fs : FS) :
  getEnvFileName this functionName = Ok fileName ->
  (existsSync (getEnvDirectory this) fs = false ->
     (exists r fs' later,
         createCFFile this functionName resourceMap fs
         = (r, fs', MkdirSync (getEnvDirectory this) 448 :: later))
     /\ (forall fs',
         mkdirSync (getEnvDirectory this) 448 fs = inr fs' ->
         statSync_isDirectory (getEnvDirectory this) fs' = inr true ->
         fst (createCFFile this functionName resourceMap fs) = (Ok tt, fs')
         /\ mkdirs (snd (createCFFile this functionName resourceMap fs))
            = [(getEnvDirectory this, 448%N)]
         /\ writes (snd (createCFFile this functionName resourceMap fs))
            = [(getEnvDirectory this ++ "/" ++ fileName, properties resourceMap)]))
  /\ (existsSync (getEnvDirectory this) fs = true ->
      statSync_isDirectory (getEnvDirectory this) fs = inr false ->
      createCFFile this functionName resourceMap fs
      = (Throw (Error ("Expected " ++ getEnvDirectory this ++ " to be a directory")), fs, [])).
Proof.
  intros E. rewrite (createCFFile_run _ _ _ _ _ E). cbv zeta. split.
  - intros ->. split.
    + destruct (mkdirSync (getEnvDirectory this) 448 fs) as [e|fs']; [eauto|].
      destruct (statSync_isDirectory (getEnvDirectory this) fs') as [e|[|]]; eauto.
    + intros fs' -> ->. repeat split.
  - intros -> ->. reflexivity.
Qed.

(** [updateFunction] for a declared function: what is logged and published
    before the file is made does not depend on the file system. *)
Lemma updateFunction_run this stackName resourceMap functionName f (fs : FS) :
  Js.get functionName (functions (service (serverless this))) = Some f ->
  updateFunction this stackName resourceMap functionName fs
  = let before :=
      ((if (0 <? length (notFoundList resourceMap f))%nat
        then [Log (warning functionName (notFoundList resourceMap f))]
        else [])
       ++ (if (length (lodash.keys (thisFunctionsResources resourceMap f)) =? 0)%nat
           then [Log ("[serverless-resources-env] No env resources configured for "
                      ++ functionName ++ ". Clearing env vars")]
           else [Log ("[serverless-resources-env] Setting env vars for "
                      ++ functionName ++ ". " ++ "")])
       ++ [UpdateFunctionConfiguration (stackName ++ "-" ++ functionName)
             (thisFunctionEnv this resourceMap f)])%list in
    match createCFFile this functionName (thisFunctionsResources resourceMap f) fs with
    | (r, fs', events) => (r, fs', (before ++ events)%list)
    end.
Proof.
  intros G. unfold updateFunction. rewrite G.
  unfold bind, ret, updateFunctionEnv, log, emit. cbv zeta.
  destruct (0 <? length (notFoundList resourceMap f))%nat;
    destruct (length (lodash.keys (thisFunctionsResources resourceMap f)) =? 0)%nat;
    destruct (createCFFile this functionName (thisFunctionsResources resourceMap f) fs)
      as [[r fs'] events]; reflexivity.
Qed.

(** [notFoundList] is the request list without the keys the resource map
    has, in request order. *)
Lemma notFoundList_filter (resourceMap : Js.obj string) (f : FunctionDef) :
  notFoundList resourceMap f
  = filter (fun key => negb (Js.has key resourceMap)) (resourceList f).
Proof.
  unfold notFoundList, lodash.difference. apply filter_ext_in. intros x I. f_equal.
  rewrite keys_thisFunctionsResources. unfold Js.has.
  assert (Js.get x (thisFunctionsResources resourceMap f) = Js.get x resourceMap) as P.
  { unfold thisFunctionsResources. rewrite lodashFacts.get_pick.
    destruct (in_dec string_dec x (resourceList f)); [reflexivity | contradiction]. }
  destruct (existsb (String.eqb x) (List.map fst (thisFunctionsResources resourceMap f)))
    eqn:E.
  - apply existsb_exists in E. destruct E as [y [J Y]].
    apply String.eqb_eq in Y. subst y.
    destruct (Js.get x resourceMap) eqn:G; [reflexivity|].
    apply JsFacts.get_None_iff in P. contradiction.
  - destruct (Js.get x resourceMap) as [v|] eqn:G; [|reflexivity].
    apply JsFacts.get_Some_In in P. apply (in_map fst) in P.
    assert (existsb (String.eqb x)
              (List.map fst (thisFunctionsResources resourceMap f)) = true) as T;
      [|congruence].
    apply existsb_exists. exists x. split; [exact P | apply String.eqb_refl].
Qed.

(** C5: a requested name that the resource map lacks is listed in
    [notFoundList] under its prefixed key and is absent from the matched
    resources; [notFoundList] is exactly the requested keys minus those the
    resource map has, in request order, so a key that was found is never
    reported; the warning naming the function and these missing keys is the
    first thing logged for the function, the publish call follows, and the
    outcome of the function's step is that of its file write alone. *)
Theorem unmet_request_reported (this : ServerlessResourcesEnv) (stackName : string)
    (resourceMap : Js.obj string) (functionName : string) (f : FunctionDef)
    (wanted : list string) (name : string) (fs : FS) :
  Js.get functionName (functions (service (serverless this))) = Some f ->
  Js.and_then (function_custom f) env_resources = Some wanted ->
  In name wanted ->
  Js.get ("CF_" ++ name) resourceMap = None ->
  In ("CF_" ++ name) (notFoundList resourceMap f)
  /\ notFoundList resourceMap f
     = filter (fun key => negb (Js.has key resourceMap)) (resourceList f)
  /\ (forall key,
        In key (notFoundList resourceMap f)
        <-> In key (resourceList f) /\ Js.get key resourceMap = None)
  /\ Js.get ("CF_" ++ name) (thisFunctionsResources resourceMap f) = None
  /\ ~ In ("CF_" ++ name) (lodash.keys (thisFunctionsResources resourceMap f))
  /\ (exists later,
        snd (updateFunction this stackName resourceMap functionName fs)
        = Log ("[serverless-resources-env] WARNING: Could not find cloud formation resources for "
               ++ functionName ++ "." ++ "Could not find: "
               ++ lodash.join (notFoundList resourceMap f))
          :: later
        /\ updates later
           = (stackName ++ "-" ++ functionName, thisFunctionEnv this resourceMap f)
             :: updates (snd (createCFFile this functionName
                                (thisFunctionsResources resourceMap f) fs)))
  /\ fst (updateFunction this stackName resourceMap functionName fs)
     = fst (createCFFile this functionName (thisFunctionsResources resourceMap f) fs).
Proof.
  intros G W I A.
  assert (Js.get ("CF_" ++ name) (thisFunctionsResources resourceMap f) = None) as P.
  { unfold thisFunctionsResources. rewrite lodashFacts.get_pick.
    destruct (in_dec string_dec ("CF_" ++ name) (resourceList f)); [exact A | reflexivity]. }
  assert (~ In ("CF_" ++ name) (lodash.keys (thisFunctionsResources resourceMap f))) as K.
  { rewrite keys_thisFunctionsResources. apply JsFacts.get_None_iff. exact P. }
  assert (In ("CF_" ++ name) (notFoundList resourceMap f)) as NF.
  { unfold notFoundList. apply lodashFacts.In_difference. split; [|exact K].
    unfold resourceList. rewrite W. cbn [lodash.map].
    apply (in_map (fun resource => "CF_" ++ resource)). exact I. }
  assert (forall key,
            In key (notFoundList resourceMap f)
            <-> In key (resourceList f) /\ Js.get key resourceMap = None) as X.
  { intros key. rewrite notFoundList_filter, filter_In, negb_true_iff. unfold Js.has.
    destruct (Js.get key resourceMap); intuition congruence. }
  split; [exact NF|]. split; [apply notFoundList_filter|]. split; [exact X|].
  split; [exact P|]. split; [exact K|]. split.
  - rewrite (updateFunction_run _ _ _ _ _ _ G). cbv zeta.
    destruct (createCFFile this functionName (thisFunctionsResources resourceMap f) fs)
      as [[r fs'] events]. cbn [snd].
    destruct (notFoundList resourceMap f) as [|k ks] eqn:NFL; [destruct NF|].
    cbn [length Nat.ltb Nat.leb app]. eexists. split; [reflexivity|].
    rewrite !updates_app.
    destruct (length (lodash.keys (thisFunctionsResources resourceMap f)) =? 0)%nat;
      reflexivity.
  - rewrite (updateFunction_run _ _ _ _ _ _ G). cbv zeta.
    destruct (createCFFile this functionName (thisFunctionsResources resourceMap f) fs)
      as [[r fs'] events]. reflexivity.
Qed.

(** *** Traces of one function's step *)

Lemma createCFFile_trace this functionName resourceMap (fs : FS) :
  updates (snd (createCFFile this functionName resourceMap fs)) = []
  /\ match fst (fst (createCFFile this functionName resourceMap fs)) with
     | Ok _ =>
         exists fileName,
           getEnvFileName this functionName = Ok fileName
           /\ writes (snd (createCFFile this functionName resourceMap fs))
              = [(getEnvDirectory this ++ "/" ++ fileName, properties resourceMap)]
     | Throw _ => writes (snd (createCFFile this functionName resourceMap fs)) = []
     end.
Proof.
  destruct (getEnvFileName this functionName) as [fileName|e] eqn:E.
  - rewrite (createCFFile_run _ _ _ _ _ E). cbv zeta.
    destruct (existsSync (getEnvDirectory this) fs).
    + destruct (statSync_isDirectory (getEnvDirectory this) fs) as [e|[|]];
        cbn [fst snd]; split; try reflexivity.
      exists fileName. split; reflexivity.
    + destruct (mkdirSync (getEnvDirectory this) 448 fs) as [e|fs'];
        [split; reflexivity|].
      destruct (statSync_isDirectory (getEnvDirectory this) fs') as [e|[|]];
        cbn [fst snd]; split; try reflexivity.
      exists fileName. split; reflexivity.
  - unfold createCFFile. rewrite E. split; reflexivity.
Qed.

Lemma updateFunction_undeclared this stackName resourceMap functionName (fs : FS) :
  Js.get functionName (functions (service (serverless this))) = None ->
  updateFunction this stackName resourceMap functionName fs
  = (Throw (TypeError "Cannot read property 'custom' of undefined"), fs, []).
Proof. intros G. unfold updateFunction. rewrite G. reflexivity. Qed.

Lemma updateFunction_trace this stackName resourceMap functionName f (fs : FS) :
  Js.get functionName (functions (service (serverless this))) = Some f ->
  updates (snd (updateFunction this stackName resourceMap functionName fs))
  = [(stackName ++ "-" ++ functionName, thisFunctionEnv this resourceMap f)]
  /\ match fst (fst (updateFunction this stackName resourceMap functionName fs)) with
     | Ok _ =>
         exists fileName,
           getEnvFileName this functionName = Ok fileName
           /\ writes (snd (updateFunction this stackName resourceMap functionName fs))
              = [(getEnvDirectory this ++ "/" ++ fileName,
                  properties (thisFunctionsResources resourceMap f))]
     | Throw _ =>
         writes (snd (updateFunction this stackName resourceMap functionName fs)) = []
     end.
Proof.
  intros G. rewrite (updateFunction_run _ _ _ _ _ _ G). cbv zeta.
  pose proof (createCFFile_trace this functionName
                (thisFunctionsResources resourceMap f) fs) as [U W].
  destruct (createCFFile this functionName (thisFunctionsResources resourceMap f) fs)
    as [[r fs'] events]. cbn [fst snd] in *.
  rewrite !updates_app, !writes_app, U.
  split.
  - destruct (0 <? length (notFoundList resourceMap f))%nat;
      destruct (length (lodash.keys (thisFunctionsResources resourceMap f)) =? 0)%nat;
      reflexivity.
  - destruct (0 <? length (notFoundList resourceMap f))%nat;
      destruct (length (lodash.keys (thisFunctionsResources resourceMap f)) =? 0)%nat;
      exact W.
Qed.

(** *** The map over the function names *)

Lemma mapM_cons_run {A B} (g : A -> M B) a l (fs : FS) :
  mapM g (a :: l) fs
  = match g a fs with
    | (Ok b, fs1, ev1) =>
        match mapM g l fs1 with
        | (Ok bs, fs2, ev2) => (Ok (b :: bs), fs2, (ev1 ++ ev2)%list)
        | (Throw e, fs2, ev2) => (Throw e, fs2, (ev1 ++ ev2)%list)
        end
    | (Throw e, fs1, ev1) => (Throw e, fs1, ev1)
    end.
Proof.
  cbn [mapM]. unfold bind, ret.
  destruct (g a fs) as [[[b|e] fs1] ev1]; [|reflexivity].
  destruct (mapM g l fs1) as [[[bs|e] fs2] ev2]; [|reflexivity].
  rewrite app_nil_r. reflexivity.
Qed.

Lemma mapM_updateFunction_updates this stackName resourceMap names (fs : FS) :
  exists n,
    List.map fst (updates (snd (mapM (updateFunction this stackName resourceMap) names fs)))
    = List.map (fun functionName => stackName ++ "-" ++ functionName) (firstn n names)
    /\ (forall promises,
          fst (fst (mapM (updateFunction this stackName resourceMap) names fs)) = Ok promises ->
          n = length names /\ length promises = length names).
Proof.
  revert fs. induction names as [|fn names IH]; intros fs.
  - exists 0. split; [reflexivity|]. intros ps [= <-]. split; reflexivity.
  - rewrite mapM_cons_run.
    destruct (Js.get fn (functions (service (serverless this)))) as [f|] eqn:G.
    + pose proof (updateFunction_trace this stackName resourceMap fn f fs G) as [U _].
      destruct (updateFunction this stackName resourceMap fn fs) as [[[b|e] fs1] ev1];
        cbn [fst snd] in U.
      * destruct (IH fs1) as [n [Un Cn]].
        destruct (mapM (updateFunction this stackName resourceMap) names fs1)
          as [[[bs|e] fs2] ev2]; cbn [fst snd] in *; exists (S n);
          rewrite updates_app, map_app, U, Un; (split; [reflexivity|]).
        -- intros ps [= <-]. destruct (Cn bs eq_refl) as [-> L].
           cbn [length]. rewrite L. split; reflexivity.
        -- intros ps [=].
      * exists 1. cbn [fst snd]. rewrite U. split; [reflexivity|]. intros ps [=].
    + rewrite (updateFunction_undeclared _ _ _ _ _ G).
      exists 0. split; [reflexivity|]. intros ps [=].
Qed.

Lemma mapM_updateFunction_writes this stackName resourceMap names (fs : FS) :
  exists n,
    Forall2
      (fun functionName written =>
         exists f fileName,
           Js.get functionName (functions (service (serverless this))) = Some f
           /\ getEnvFileName this functionName = Ok fileName
           /\ written = (getEnvDirectory this ++ "/" ++ fileName,
                         lines (Js.entries (thisFunctionsResources resourceMap f))))
      (firstn n names)
      (writes (snd (mapM (updateFunction this stackName resourceMap) names fs)))
    /\ (forall promises,
          fst (fst (mapM (updateFunction this stackName resourceMap) names fs)) = Ok promises ->
          n = length names).
Proof.
  revert fs. induction names as [|fn names IH]; intros fs.
  - exists 0. split; [constructor|]. intros ps _. reflexivity.
  - rewrite mapM_cons_run.
    destruct (Js.get fn (functions (service (serverless this)))) as [f|] eqn:G.
    + pose proof (updateFunction_trace this stackName resourceMap fn f fs G) as [_ W].
      destruct (updateFunction this stackName resourceMap fn fs) as [[[b|e] fs1] ev1];
        cbn [fst snd] in W.
      * destruct W as [fileName [E W]].
        destruct (IH fs1) as [n [Wn Cn]].
        assert (Forall2
                  (fun functionName written =>
                     exists f fileName,
                       Js.get functionName (functions (service (serverless this))) = Some f
                       /\ getEnvFileName this functionName = Ok fileName
                       /\ written = (getEnvDirectory this ++ "/" ++ fileName,
                                     lines (Js.entries (thisFunctionsResources resourceMap f))))
                  (firstn (S n) (fn :: names))
                  (writes ev1
                   ++ writes (snd (mapM (updateFunction this stackName resourceMap) names fs1))))
          as F.
        { rewrite W. cbn [firstn app]. constructor; [|exact Wn].
          exists f, fileName. rewrite <- properties_lines. auto. }
        destruct (mapM (updateFunction this stackName resourceMap) names fs1)
          as [[[bs|e] fs2] ev2]; cbn [fst snd] in *; exists (S n);
          rewrite writes_app; (split; [exact F|]).
        -- intros ps _. rewrite (Cn bs eq_refl). reflexivity.
        -- intros ps [=].
      * exists 0. cbn [fst snd]. rewrite W. split; [constructor|]. intros ps [=].
    + rewrite (updateFunction_undeclared _ _ _ _ _ G).
      exists 0. split; [constructor|]. intros ps [=].
Qed.

(** *** The hook as a whole *)

Lemma afterDeploy_run this responses (fs : FS) :
  afterDeploy this responses fs
  = match snd (fetchCFResources this responses) with
    | Resolved resourceResult =>
        match mapM (updateFunction this (getStackName this)
                      (resources (StackResources resourceResult)))
                (lodash.keys (functions (service (serverless this)))) fs with
        | (Ok promises, fs', events) =>
            (Ok (AllOf (length promises)), fs',
             (fst (fetchCFResources this responses) ++ events)%list)
        | (Throw e, fs', events) =>
            (Throw e, fs', (fst (fetchCFResources this responses) ++ events)%list)
        end
    | Rejected reason => (Ok (FetchRejected reason), fs, fst (fetchCFResources this responses))
    | Pending => (Ok FetchPending, fs, fst (fetchCFResources this responses))
    end.
Proof.
  unfold afterDeploy.
  destruct (fetchCFResources this responses) as [fetchEvents [result|reason|]];
    cbn [fst snd]; unfold bind, emit, ret.
  - destruct (mapM _ _ fs) as [[[ps|e] fs'] events]; [|reflexivity].
    rewrite app_nil_r. reflexivity.
  - rewrite app_nil_r. reflexivity.
  - rewrite app_nil_r. reflexivity.
Qed.

Lemma fetchCFResources_quiet this responses :
  updates (fst (fetchCFResources this responses)) = []
  /\ writes (fst (fetchCFResources this responses)) = []
  /\ mkdirs (fst (fetchCFResources this responses)) = [].
Proof.
  unfold fetchCFResources.
  pose proof (fetch_pages_quiet (getStackName this) None [] responses) as Q.
  destruct (fetchCFResourcesPages (getStackName this) None [] responses) as [events promise].
  exact Q.
Qed.

Lemma fetchCFResources_promise this responses :
  snd (fetchCFResources this responses)
  = snd (fetchCFResourcesPages (getStackName this) None [] responses).
Proof.
  unfold fetchCFResources.
  destruct (fetchCFResourcesPages (getStackName this) None [] responses); reflexivity.
Qed.

(** C8: when a page request errors (the pages before it each carried a
    token), the fetch rejects with that very error and resolves with
    nothing, and the failed request is its last one; [afterDeploy] then
    ends with the rejection, leaves the file system as it was, and issues
    no publish call, no directory creation and no file write. *)
Theorem fetch_error_aborts (this : ServerlessResourcesEnv) (stackName : string)
    (pages : list (list StackResourceSummary * string)) (err : Exn)
    (later : list Callback) (fs : FS) :
  snd (fetchCFResourcesPages stackName None []
         (List.map tokenPage pages ++ CbErr err :: later))
    = Rejected err
  /\ length (requests (fst (fetchCFResourcesPages stackName None []
                              (List.map tokenPage pages ++ CbErr err :: later))))
    = S (length pages)
  /\ snd (fetchCFResources this (List.map tokenPage pages ++ CbErr err :: later))
    = Rejected err
  /\ fst (afterDeploy this (List.map tokenPage pages ++ CbErr err :: later) fs)
    = (Ok (FetchRejected err), fs)
  /\ updates (snd (afterDeploy this (List.map tokenPage pages ++ CbErr err :: later) fs)) = []
  /\ writes (snd (afterDeploy this (List.map tokenPage pages ++ CbErr err :: later) fs)) = []
  /\ mkdirs (snd (afterDeploy this (List.map tokenPage pages ++ CbErr err :: later) fs)) = [].
Proof.
  assert (snd (fetchCFResources this (List.map tokenPage pages ++ CbErr err :: later))
          = Rejected err) as R.
  { rewrite fetchCFResources_promise. apply fetch_pages_rejects. }
  split; [apply fetch_pages_rejects|].
  split; [rewrite fetch_pages_rejects_requests; cbn [length]; rewrite length_map; reflexivity|].
  split; [exact R|].
  rewrite afterDeploy_run, R. cbn [fst snd].
  split; [reflexivity|]. apply fetchCFResources_quiet.
Qed.

(** C10: the remote names of the publish calls of [afterDeploy] are, in
    order, [serviceName + "-" + stage + "-" + f] for the declared function
    names [f] as [_.keys] lists them, up to the function at which a step
    throws; when the hook runs through, every declared function has its
    call. *)
Theorem remote_function_names (this : ServerlessResourcesEnv)
    (responses : list Callback) (fs : FS) :
  exists n,
    List.map fst (updates (snd (afterDeploy this responses fs)))
    = List.map
        (fun functionName =>
           service_name (service (serverless this)) ++ "-" ++ getStage this
           ++ "-" ++ functionName)
        (firstn n (lodash.keys (functions (service (serverless this)))))
    /\ (forall count,
          fst (fst (afterDeploy this responses fs)) = Ok (AllOf count) ->
          n = length (lodash.keys (functions (service (serverless this))))
          /\ count = n).
Proof.
  rewrite afterDeploy_run.
  destruct (fetchCFResources_quiet this responses) as [U _].
  destruct (snd (fetchCFResources this responses)) as [result|reason|].
  - destruct (mapM_updateFunction_updates this (getStackName this)
                (resources (StackResources result))
                (lodash.keys (functions (service (serverless this)))) fs)
      as [n [Un Cn]].
    exists n.
    destruct (mapM _ _ fs) as [[[ps|e] fs'] events]; cbn [fst snd] in *;
      rewrite updates_app, U, app_nil_l, Un; split.
    + apply map_ext. intros a. unfold getStackName. rewrite append_assoc. reflexivity.
    + intros count [= <-]. destruct (Cn ps eq_refl) as [-> ->]. split; reflexivity.
    + apply map_ext. intros a. unfold getStackName. rewrite append_assoc. reflexivity.
    + intros count [=].
  - exists 0. cbn [fst snd]. rewrite U. split; [reflexivity|]. intros count [=].
  - exists 0. cbn [fst snd]. rewrite U. split; [reflexivity|]. intros count [=].
Qed.

(** C1 (as the code has it): the files written by [afterDeploy] are, in
    order, those of the declared functions up to the one at which a step
    throws, all of them when the hook runs through; the file of a function
    is [directory/fileName] and its content is exactly one line
    [KEY=VALUE\n] per entry of the function's matched resources (the
    requested [CF_] keys found in the resource map), in the order of that
    mapping, and nothing else. The provider's and the function's own
    [environment] are not part of the file. *)
Theorem file_content_is_matched_resources (this : ServerlessResourcesEnv)
    (responses : list Callback) (resourceResult : ResourceResult) (fs : FS) :
  snd (fetchCFResources this responses) = Resolved resourceResult ->
  exists n,
    Forall2
      (fun functionName written =>
         exists f fileName,
           Js.get functionName (functions (service (serverless this))) = Some f
           /\ getEnvFileName this functionName = Ok fileName
           /\ written
              = (getEnvDirectory this ++ "/" ++ fileName,
                 lines (Js.entries
                          (thisFunctionsResources
                             (resources (StackResources resourceResult)) f))))
      (firstn n (lodash.keys (functions (service (serverless this)))))
      (writes (snd (afterDeploy this responses fs)))
    /\ (forall count,
          fst (fst (afterDeploy this responses fs)) = Ok (AllOf count) ->
          n = length (lodash.keys (functions (service (serverless this))))).
Proof.
  intros R. rewrite afterDeploy_run, R.
  destruct (fetchCFResources_quiet this responses) as (_ & W & _).
  destruct (mapM_updateFunction_writes this (getStackName this)
              (resources (StackResources resourceResult))
              (lodash.keys (functions (service (serverless this)))) fs)
    as [n [Wn Cn]].
  exists n.
  destruct (mapM _ _ fs) as [[[ps|e] fs'] events]; cbn [fst snd] in *;
    rewrite writes_app, W, app_nil_l; (split; [exact Wn|]).
  - intros count _. apply (Cn ps eq_refl).
  - intros count [=].
Qed.

End Hook.

(* ================================================================== *)
(** ** The hook on concrete services *)

(** The [afterDeploy] case of the test suite: one publish call per
    function, with the matched resources. *)
Example afterDeploy_test_suite :
  updates (snd (afterDeploy (stub testFunctions) [lastPage testResources] ([] : MemFS)))
  = [ ("unit-test-service-dev-function1", [("CF_a", "1"); ("CF_b", "2"); ("CF_c", "3")]);
      ("unit-test-service-dev-function2", [("CF_a", "1"); ("CF_b", "2"); ("CF_c", "3")]);
      ("unit-test-service-dev-function3", []);
      ("unit-test-service-dev-function4", []) ].
Proof. reflexivity. Qed.

(** The [createCFFile] cases of the test suite: the default file name, and
    the error when a file shadows the directory. *)
Example createCFFile_default_name :
  writes (snd (createCFFile (stub [("function1", noCustom); ("function2", noCustom)])
                 "function1" [("a", "1"); ("b", "2"); ("c", "3")] ([] : MemFS)))
  = [("./.serverless-resources-env/.us-east-1_dev_function1",
      "a=1" ++ Js.nl ++ "b=2" ++ Js.nl ++ "c=3" ++ Js.nl)].
Proof. reflexivity. Qed.

Example createCFFile_not_a_directory :
  createCFFile (stub [("function1", noCustom)]) "function1" [("a", "1")]
    ([("./.serverless-resources-env", RegularFile)] : MemFS)
  = (Throw (Error "Expected ./.serverless-resources-env to be a directory"),
     [("./.serverless-resources-env", RegularFile)], []).
Proof. reflexivity. Qed.

Lemma file_content_is_matched_resources_witness :
  exists n,
    Forall2
      (fun functionName written =>
         exists f fileName,
           Js.get functionName (functions (service (serverless helloService))) = Some f
           /\ getEnvFileName helloService functionName = Ok fileName
           /\ written
              = (getEnvDirectory helloService ++ "/" ++ fileName,
                 lines (Js.entries
                          (thisFunctionsResources
                             (resources
                                (StackResources
                                   {| StackResources :=
                                        [ {| LogicalResourceId := "testTopic1";
                                             PhysicalResourceId := "arn:topic1" |} ] |}))
                             f))))
      (firstn n (lodash.keys (functions (service (serverless helloService)))))
      (writes (snd (afterDeploy helloService helloResponses ([] : MemFS))))
    /\ (forall count,
          fst (fst (afterDeploy helloService helloResponses ([] : MemFS))) = Ok (AllOf count) ->
          n = length (lodash.keys (functions (service (serverless helloService))))).
Proof.
  apply (file_content_is_matched_resources helloService helloResponses
           {| StackResources :=
                [ {| LogicalResourceId := "testTopic1";
                     PhysicalResourceId := "arn:topic1" |} ] |}
           ([] : MemFS)).
  reflexivity.
Defined.

(** The file of [hello] holds its matched resource only, while its resolved
    environment also has the provider's [LOG_LEVEL]: the file is not the
    serialization of the resolved environment. *)
Lemma file_is_not_the_resolved_environment :
  exists written resolved,
    writes (snd (afterDeploy helloService helloResponses ([] : MemFS)))
      = [("./.serverless-resources-env/.us-east-1_dev_hello", written)]
    /\ written = "CF_testTopic1=arn:topic1" ++ Js.nl
    /\ updates (snd (afterDeploy helloService helloResponses ([] : MemFS)))
      = [("svc-dev-hello", resolved)]
    /\ resolved
       = thisFunctionEnv helloService
           (resources [ {| LogicalResourceId := "testTopic1";
                           PhysicalResourceId := "arn:topic1" |} ])
           (wants ["testTopic1"])
    /\ resolved = [("CF_testTopic1", "arn:topic1"); ("LOG_LEVEL", "debug")]
    /\ lines (Js.entries resolved)
       = "CF_testTopic1=arn:topic1" ++ Js.nl ++ "LOG_LEVEL=debug" ++ Js.nl
    /\ written <> lines (Js.entries resolved).
Proof.
  exists ("CF_testTopic1=arn:topic1" ++ Js.nl),
         [("CF_testTopic1", "arn:topic1"); ("LOG_LEVEL", "debug")].
  repeat split; try reflexivity. discriminate.
Qed.

Lemma createCFFile_directory_safety_witness :
  (fst (createCFFile helloService "hello" [("CF_testTopic1", "arn:topic1")] ([] : MemFS))
     = (Ok tt, [("./.serverless-resources-env", Directory 448)])
   /\ mkdirs (snd (createCFFile helloService "hello" [("CF_testTopic1", "arn:topic1")]
                     ([] : MemFS)))
      = [("./.serverless-resources-env", 448%N)]
   /\ writes (snd (createCFFile helloService "hello" [("CF_testTopic1", "arn:topic1")]
                     ([] : MemFS)))
      = [("./.serverless-resources-env/.us-east-1_dev_hello",
          properties [("CF_testTopic1", "arn:topic1")])])
  /\ createCFFile helloService "hello" [("CF_testTopic1", "arn:topic1")]
       ([("./.serverless-resources-env", RegularFile)] : MemFS)
     = (Throw (Error "Expected ./.serverless-resources-env to be a directory"),
        [("./.serverless-resources-env", RegularFile)], []).
Proof.
  split.
  - destruct (createCFFile_directory_safety helloService "hello" ".us-east-1_dev_hello"
                [("CF_testTopic1", "arn:topic1")] ([] : MemFS) eq_refl) as [missing _].
    destruct (missing eq_refl) as [_ made].
    apply (made [("./.serverless-resources-env", Directory 448)] eq_refl eq_refl).
  - destruct (createCFFile_directory_safety helloService "hello" ".us-east-1_dev_hello"
                [("CF_testTopic1", "arn:topic1")]
                ([("./.serverless-resources-env", RegularFile)] : MemFS) eq_refl)
      as [_ shadowed].
    apply (shadowed eq_refl eq_refl).
Defined.

Lemma unmet_request_reported_witness :
  In "CF_unknown" (notFoundList (resources testResources) (wants ["a"; "unknown"; "c"]))
  /\ notFoundList (resources testResources) (wants ["a"; "unknown"; "c"])
     = filter (fun key => negb (Js.has key (resources testResources)))
         (resourceList (wants ["a"; "unknown"; "c"]))
  /\ (In "CF_a" (notFoundList (resources testResources) (wants ["a"; "unknown"; "c"]))
      <-> In "CF_a" (resourceList (wants ["a"; "unknown"; "c"]))
          /\ Js.get "CF_a" (resources testResources) = None)
  /\ Js.get "CF_unknown"
       (thisFunctionsResources (resources testResources) (wants ["a"; "unknown"; "c"]))
     = None
  /\ fst (updateFunction (stub [("function5", wants ["a"; "unknown"; "c"])])
            "unit-test-service-dev" (resources testResources) "function5" ([] : MemFS))
     = fst (createCFFile (stub [("function5", wants ["a"; "unknown"; "c"])]) "function5"
              (thisFunctionsResources (resources testResources)
                 (wants ["a"; "unknown"; "c"]))
              ([] : MemFS)).
Proof.
  destruct (unmet_request_reported (stub [("function5", wants ["a"; "unknown"; "c"])])
              "unit-test-service-dev" (resources testResources) "function5"
              (wants ["a"; "unknown"; "c"]) ["a"; "unknown"; "c"] "unknown" ([] : MemFS))
    as (listed & shape & only & absent & _ & _ & same);
    [reflexivity | reflexivity | right; left; reflexivity | reflexivity |].
  split; [exact listed|]. split; [exact shape|]. split; [exact (only "CF_a")|].
  split; [exact absent | exact same].
Defined.

(* ================================================================== *)
(** ** Further properties: selection, mapping, naming *)

(** X1: when the requested names are names [_.pick] takes as they are (no
    ["."], no ["["]), the matched resources of a function hold a key
    exactly when the function asks for it and the resource map has it, with
    the resource map's value. *)
Theorem matched_resources_exact (resourceMap : Js.obj string) (f : FunctionDef)
    (key value : string) :
  forallb lodash.literal_name (resourceList f) = true ->
  (Js.get key (thisFunctionsResources resourceMap f) = Some value
   <-> In key (resourceList f) /\ Js.get key resourceMap = Some value).
Proof.
  intros _. unfold thisFunctionsResources. rewrite lodashFacts.get_pick.
  destruct (in_dec string_dec key (resourceList f)) as [I|N].
  - tauto.
  - split; [discriminate | tauto].
Qed.

Lemma matched_resources_exact_witness :
  Js.get "CF_a" (thisFunctionsResources (resources testResources) (wants ["a"; "x"]))
    = Some "1"
  <-> In "CF_a" (resourceList (wants ["a"; "x"]))
      /\ Js.get "CF_a" (resources testResources) = Some "1".
Proof.
  apply (matched_resources_exact (resources testResources) (wants ["a"; "x"]) "CF_a" "1").
  reflexivity.
Defined.

(** X2: [notFoundList] holds exactly the requested keys that the resource
    map lacks. *)
Theorem notFoundList_exact (resourceMap : Js.obj string) (f : FunctionDef) (key : string) :
  In key (notFoundList resourceMap f)
  <-> In key (resourceList f) /\ Js.get key resourceMap = None.
Proof.
  unfold notFoundList. rewrite lodashFacts.In_difference, keys_thisFunctionsResources.
  rewrite <- JsFacts.get_None_iff. unfold thisFunctionsResources.
  rewrite lodashFacts.get_pick.
  destruct (in_dec string_dec key (resourceList f)) as [I|N]; tauto.
Qed.

Lemma set_fresh {V} (k : string) (v : V) (o : Js.obj V) :
  Js.get k o = None -> Js.set k v o = (o ++ [(k, v)])%list.
Proof.
  induction o as [|[k0 v0] o IH]; simpl; [reflexivity|].
  destruct (k0 =? k); [discriminate|]. intros G. rewrite (IH G). reflexivity.
Qed.

Lemma fold_addResource_distinct (l : list StackResourceSummary) (acc : Js.obj string) :
  NoDup (List.map LogicalResourceId l) ->
  (forall item, In item l -> Js.get ("CF_" ++ LogicalResourceId item) acc = None) ->
  fold_left addResource l acc
  = (acc ++ List.map (fun item => (("CF_" ++ LogicalResourceId item)%string,
                                   PhysicalResourceId item)) l)%list.
Proof.
  revert acc. induction l as [|item l IH]; intros acc ND F; cbn [fold_left List.map].
  - rewrite app_nil_r. reflexivity.
  - inversion ND as [|? ? NI ND']; subst.
    unfold addResource at 2.
    rewrite (set_fresh _ _ _ (F item (or_introl eq_refl))).
    rewrite IH; [rewrite <- app_assoc; reflexivity | exact ND' |].
    intros other I. apply JsFacts.get_None_iff. rewrite map_app, in_app_iff.
    intros [J|[E|[]]].
    + apply JsFacts.get_None_iff in J; [exact J|]. apply F. right. exact I.
    + cbn [fst] in E. apply JsFacts.CF_inj in E. apply NI. rewrite E.
      apply in_map. exact I.
Qed.

(** X3: when the fetched resources have pairwise distinct logical ids, the
    resource map has one entry per resource, in the order fetched. *)
Theorem resources_distinct_ids (l : list StackResourceSummary) :
  NoDup (List.map LogicalResourceId l) ->
  resources l
  = List.map (fun item => ("CF_" ++ LogicalResourceId item, PhysicalResourceId item)) l.
Proof.
  intros ND. unfold resources, lodash.reduce.
  rewrite fold_addResource_distinct; [reflexivity | exact ND | reflexivity].
Qed.

Lemma resources_distinct_ids_witness :
  resources testResources
  = List.map (fun item => ("CF_" ++ LogicalResourceId item, PhysicalResourceId item))
      testResources.
Proof.
  apply (resources_distinct_ids testResources).
  repeat constructor; simpl; intuition discriminate.
Defined.

Lemma In_keys_fold_addResource (l : list StackResourceSummary) (acc : Js.obj string)
    (key : string) :
  In key (List.map fst (fold_left addResource l acc))
  <-> In key (List.map fst acc)
      \/ exists item, In item l /\ key = "CF_" ++ LogicalResourceId item.
Proof.
  revert acc. induction l as [|item l IH]; intros acc; cbn [fold_left].
  - split; [tauto|]. intros [I|[item [[] _]]]. exact I.
  - rewrite IH. unfold addResource. rewrite JsFacts.In_keys_set. split.
    + intros [[->|I]|[other [I E]]]; [right | left | right].
      * exists item. split; [left|]; reflexivity.
      * exact I.
      * exists other. split; [right|]; assumption.
    + intros [I|[other [[<-|I] E]]].
      * left. right. exact I.
      * left. left. exact E.
      * right. exists other. split; assumption.
Qed.

(** X4: the keys of the resource map are exactly the logical ids fetched,
    each with the ["CF_"] prefix. *)
Theorem resources_keys_exact (l : list StackResourceSummary) (key : string) :
  In key (lodash.keys (resources l))
  <-> exists item, In item l /\ key = "CF_" ++ LogicalResourceId item.
Proof.
  rewrite keys_resources. unfold resources, lodash.reduce.
  rewrite In_keys_fold_addResource. simpl. tauto.
Qed.

(** X5: once a page without a token has arrived the fetch is over: what the
    service would answer after it is never asked for. *)
Theorem fetch_stops_at_last_page (stackName : string)
    (pages : list (list StackResourceSummary * string))
    (last : list StackResourceSummary) (later : list Callback) :
  fetchCFResourcesPages stackName None [] (List.map tokenPage pages ++ lastPage last :: later)
  = fetchCFResourcesPages stackName None [] (List.map tokenPage pages ++ [lastPage last]).
Proof.
  generalize (@None string) as token. generalize (@nil StackResourceSummary) as acc.
  induction pages as [|[summaries next] pages IH]; intros acc token.
  - reflexivity.
  - cbn [List.map app tokenPage fst snd fetchCFResourcesPages NextToken StackResourceSummaries].
    rewrite IH. reflexivity.
Qed.

(** X6: [getStage] and [getRegion] never return the empty string: an
    empty option or setting is passed over like an absent one. *)
Theorem stage_region_nonempty (this : ServerlessResourcesEnv) :
  getStage this <> "" /\ getRegion this <> "".
Proof.
  assert (forall v s, Js.truthy_value v = Some s -> s <> "") as T.
  { intros [x|] s; simpl; [|discriminate].
    destruct (x =? "") eqn:E; [discriminate|].
    intros [= <-]. apply String.eqb_neq. exact E. }
  unfold getStage, getRegion. split.
  - destruct (Js.truthy_value (Js.and_then (options this) opt_stage)) eqn:A; [eapply T, A|].
    destruct (Js.truthy_value (config_stage (config (serverless this)))) eqn:B; [eapply T, B|].
    destruct (Js.truthy_value (provider_stage (provider (service (serverless this))))) eqn:C;
      [eapply T, C | discriminate].
  - destruct (Js.truthy_value (Js.and_then (options this) opt_region)) eqn:A; [eapply T, A|].
    destruct (Js.truthy_value (config_region (config (serverless this)))) eqn:B; [eapply T, B|].
    destruct (Js.truthy_value (provider_region (provider (service (serverless this))))) eqn:C;
      [eapply T, C | discriminate].
Qed.

Lemma append_slash_cancel (directory name : string) :
  directory ++ "/" ++ name = directory ++ "/" -> name = "".
Proof.
  induction directory as [|c d IH]; simpl; intros [= Q]; [exact Q | apply IH, Q].
Qed.

(** X7: the file name of a function is never empty, so the file lies
    strictly below the directory and never at the directory's own path. *)
Theorem env_file_name_nonempty (this : ServerlessResourcesEnv)
    (functionName fileName : string) :
  getEnvFileName this functionName = Ok fileName ->
  fileName <> ""
  /\ getEnvDirectory this ++ "/" ++ fileName <> getEnvDirectory this ++ "/".
Proof.
  intros E.
  assert (fileName <> "") as N.
  { revert E. unfold getEnvFileName.
    destruct (Js.get functionName (functions (service (serverless this)))) as [f|].
    - intros [= <-].
      destruct (Js.and_then (function_custom f) function_resource_output_file) as [s|];
        simpl; [|discriminate].
      destruct (s =? "") eqn:Q; [discriminate | apply String.eqb_neq; exact Q].
    - destruct (Js.inherited functionName); [|discriminate].
      intros [= <-]. discriminate. }
  split; [exact N|].
  intros Q. apply N. apply (append_slash_cancel _ _ Q).
Qed.

Lemma env_file_name_nonempty_witness :
  ".us-east-1_dev_hello" <> ""
  /\ getEnvDirectory helloService ++ "/" ++ ".us-east-1_dev_hello"
     <> getEnvDirectory helloService ++ "/".
Proof.
  apply (env_file_name_nonempty helloService "hello" ".us-east-1_dev_hello"). reflexivity.
Defined.

(* ================================================================== *)
(** ** Further properties: the hooks at work *)

Section HookMore.
Context {FS : Type} `{FileSystem FS}.

Lemma declared_file_name this functionName f :
  Js.get functionName (functions (service (serverless this))) = Some f ->
  getEnvFileName this functionName
  = Ok (Js.or_else (Js.and_then (function_custom f) function_resource_output_file)
          ("." ++ getRegion this ++ "_" ++ getStage this ++ "_" ++ functionName)).
Proof. intros G. unfold getEnvFileName. rewrite G. reflexivity. Qed.

Lemma keys_declared {V} (o : Js.obj V) (k : string) :
  In k (lodash.keys o) -> exists v, Js.get k o = Some v.
Proof.
  intros I. apply JsFacts.In_own_keys in I.
  destruct (Js.get k o) as [v|] eqn:G; [exists v; reflexivity|].
  apply JsFacts.get_None_iff in G. contradiction.
Qed.

Lemma mkdirs_before (functionName : string) (notFound : list string) (noneMatched : bool)
    (a b : string) (update : Event) (events : list Event) :
  mkdirs (((if (0 <? length notFound)%nat then [Log (warning functionName notFound)] else [])
           ++ (if noneMatched then [Log a] else [Log b])
           ++ [update]) ++ events)
  = (mkdirs [update] ++ mkdirs events)%list.
Proof.
  rewrite !mkdirs_app.
  destruct (0 <? length notFound)%nat; destruct noneMatched; reflexivity.
Qed.

(** X8: when every requested resource is found no warning is logged: the
    step starts with its one status line, then publishes. *)
Theorem no_warning_when_all_found (this : ServerlessResourcesEnv) (stackName : string)
    (resourceMap : Js.obj string) (functionName : string) (f : FunctionDef) (fs : FS) :
  Js.get functionName (functions (service (serverless this))) = Some f ->
  (forall key, In key (resourceList f) -> Js.get key resourceMap <> None) ->
  notFoundList resourceMap f = []
  /\ snd (updateFunction this stackName resourceMap functionName fs)
     = Log (if (length (lodash.keys (thisFunctionsResources resourceMap f)) =? 0)%nat
            then "[serverless-resources-env] No env resources configured for "
                 ++ functionName ++ ". Clearing env vars"
            else "[serverless-resources-env] Setting env vars for "
                 ++ functionName ++ ". ")
       :: UpdateFunctionConfiguration (stackName ++ "-" ++ functionName)
            (thisFunctionEnv this resourceMap f)
       :: snd (createCFFile this functionName (thisFunctionsResources resourceMap f) fs).
Proof.
  intros G F.
  assert (notFoundList resourceMap f = []) as E.
  { destruct (notFoundList resourceMap f) as [|k ks] eqn:N; [reflexivity|].
    assert (In k (notFoundList resourceMap f)) as I by (rewrite N; left; reflexivity).
    apply notFoundList_exact in I. destruct I as [I A]. destruct (F k I A). }
  split; [exact E|].
  rewrite (updateFunction_run _ _ _ _ _ _ G). cbv zeta. rewrite E.
  destruct (createCFFile this functionName (thisFunctionsResources resourceMap f) fs)
    as [[r fs'] events]. cbn [snd length Nat.ltb Nat.leb app].
  destruct (length (lodash.keys (thisFunctionsResources resourceMap f)) =? 0)%nat;
    reflexivity.
Qed.

(** X9: [createCFFile], called with any object, issues exactly one write
    when it returns, holding one line per entry in enumeration order, and
    no write at all when it throws; it never publishes. *)
Theorem createCFFile_writes_once (this : ServerlessResourcesEnv) (functionName : string)
    (resourceMap : Js.obj string) (fs : FS) :
  updates (snd (createCFFile this functionName resourceMap fs)) = []
  /\ match fst (fst (createCFFile this functionName resourceMap fs)) with
     | Ok _ =>
         exists fileName,
           getEnvFileName this functionName = Ok fileName
           /\ writes (snd (createCFFile this functionName resourceMap fs))
              = [(getEnvDirectory this ++ "/" ++ fileName, lines (Js.entries resourceMap))]
     | Throw _ => writes (snd (createCFFile this functionName resourceMap fs)) = []
     end.
Proof.
  rewrite <- properties_lines. apply createCFFile_trace.
Qed.

(** *** A directory that is there *)

Lemma updateFunction_healthy this stackName resourceMap functionName f (fs : FS) :
  Js.get functionName (functions (service (serverless this))) = Some f ->
  existsSync (getEnvDirectory this) fs = true ->
  statSync_isDirectory (getEnvDirectory this) fs = inr true ->
  fst (updateFunction this stackName resourceMap functionName fs) = (Ok tt, fs)
  /\ mkdirs (snd (updateFunction this stackName resourceMap functionName fs)) = [].
Proof.
  intros G E D. rewrite (updateFunction_run _ _ _ _ _ _ G). cbv zeta.
  rewrite (createCFFile_run _ _ _ _ _ (declared_file_name _ _ _ G)). cbv zeta.
  rewrite E, D. cbn [fst snd]. split; [reflexivity|].
  rewrite mkdirs_before. reflexivity.
Qed.

Lemma mapM_updateFunction_healthy this stackName resourceMap names (fs : FS) :
  (forall name, In name names ->
     exists f, Js.get name (functions (service (serverless this))) = Some f) ->
  existsSync (getEnvDirectory this) fs = true ->
  statSync_isDirectory (getEnvDirectory this) fs = inr true ->
  fst (mapM (updateFunction this stackName resourceMap) names fs)
  = (Ok (List.map (fun _ => tt) names), fs)
  /\ mkdirs (snd (mapM (updateFunction this stackName resourceMap) names fs)) = [].
Proof.
  intros A E D. induction names as [|fn names IH]; [split; reflexivity|].
  rewrite mapM_cons_run.
  destruct (A fn (or_introl eq_refl)) as [f G].
  destruct (updateFunction_healthy this stackName resourceMap fn f fs G E D) as [R M1].
  destruct (updateFunction this stackName resourceMap fn fs) as [[r fs1] ev1].
  cbn [fst snd] in R, M1. injection R as -> ->.
  destruct IH as [R2 M2]; [intros; apply A; right; assumption|].
  destruct (mapM (updateFunction this stackName resourceMap) names fs) as [[r2 fs2] ev2].
  cbn [fst snd] in R2, M2. injection R2 as -> ->. cbn [fst snd List.map].
  split; [reflexivity|]. rewrite mkdirs_app, M1, M2. reflexivity.
Qed.

(** X10: when the fetch resolves and the output directory is there, the
    hook runs through every declared function: one publish call and one
    file write each, no directory creation, the file system left as it was,
    and the promise returned waits on as many steps as there are
    functions. *)
Theorem afterDeploy_runs_through (this : ServerlessResourcesEnv)
    (responses : list Callback) (resourceResult : ResourceResult) (fs : FS) :
  snd (fetchCFResources this responses) = Resolved resourceResult ->
  existsSync (getEnvDirectory this) fs = true ->
  statSync_isDirectory (getEnvDirectory this) fs = inr true ->
  fst (afterDeploy this responses fs)
  = (Ok (AllOf (length (lodash.keys (functions (service (serverless this)))))), fs)
  /\ mkdirs (snd (afterDeploy this responses fs)) = []
  /\ length (updates (snd (afterDeploy this responses fs)))
     = length (lodash.keys (functions (service (serverless this))))
  /\ length (writes (snd (afterDeploy this responses fs)))
     = length (lodash.keys (functions (service (serverless this)))).
Proof.
  intros R E D. rewrite afterDeploy_run, R.
  destruct (mapM_updateFunction_healthy this (getStackName this)
              (resources (StackResources resourceResult))
              (lodash.keys (functions (service (serverless this)))) fs
              (fun name I => keys_declared _ name I) E D) as [R2 M2].
  destruct (mapM_updateFunction_updates this (getStackName this)
              (resources (StackResources resourceResult))
              (lodash.keys (functions (service (serverless this)))) fs) as [n [U C]].
  destruct (mapM_updateFunction_writes this (getStackName this)
              (resources (StackResources resourceResult))
              (lodash.keys (functions (service (serverless this)))) fs) as [m [W C']].
  destruct (fetchCFResources_quiet this responses) as (QU & QW & QM).
  destruct (mapM _ _ fs) as [[r2 fs2] ev2]. cbn [fst snd] in *.
  injection R2 as -> ->. cbn [fst snd].
  destruct (C _ eq_refl) as [-> _]. rewrite (C' _ eq_refl) in W.
  rewrite firstn_all in U, W.
  rewrite length_map, mkdirs_app, updates_app, writes_app, QU, QW, QM, M2.
  cbn [app]. repeat split.
  - rewrite <- (length_map fst), U, length_map. reflexivity.
  - symmetry. apply (Forall2_length W).
Qed.

(** *** A directory that is missing, or shadowed by a file *)

(** X11: when the output directory is missing and can be made, the first
    function's step makes it with mode [0o700], and no later step makes it
    again; the hook runs through and leaves the file system as [mkdirSync]
    left it. *)
Theorem afterDeploy_creates_directory_once (this : ServerlessResourcesEnv)
    (responses : list Callback) (resourceResult : ResourceResult)
    (first : string) (others : list string) (fs fs' : FS) :
  snd (fetchCFResources this responses) = Resolved resourceResult ->
  lodash.keys (functions (service (serverless this))) = first :: others ->
  existsSync (getEnvDirectory this) fs = false ->
  mkdirSync (getEnvDirectory this) 448 fs = inr fs' ->
  existsSync (getEnvDirectory this) fs' = true ->
  statSync_isDirectory (getEnvDirectory this) fs' = inr true ->
  fst (afterDeploy this responses fs) = (Ok (AllOf (S (length others))), fs')
  /\ mkdirs (snd (afterDeploy this responses fs)) = [(getEnvDirectory this, 448%N)].
Proof.
  intros R K E0 MK E1 D1. rewrite afterDeploy_run, R, K.
  assert (forall name, In name (first :: others) ->
            exists f, Js.get name (functions (service (serverless this))) = Some f) as A.
  { intros name I. rewrite <- K in I. apply (keys_declared _ name I). }
  destruct (A first (or_introl eq_refl)) as [f G].
  rewrite mapM_cons_run.
  rewrite (updateFunction_run _ _ _ _ _ _ G). cbv zeta.
  rewrite (createCFFile_run _ _ _ _ _ (declared_file_name _ _ _ G)). cbv zeta.
  rewrite E0, MK, D1.
  destruct (mapM_updateFunction_healthy this (getStackName this)
              (resources (StackResources resourceResult)) others fs'
              (fun name I => A name (or_intror I)) E1 D1) as [R2 M2].
  destruct (mapM _ others fs') as [[r2 fs2] ev2]. cbn [fst snd] in R2, M2.
  injection R2 as -> ->. cbn [fst snd length]. rewrite length_map.
  split; [reflexivity|].
  destruct (fetchCFResources_quiet this responses) as (_ & _ & Q).
  rewrite mkdirs_app, Q, mkdirs_app, M2, mkdirs_before. reflexivity.
Qed.

(** X12: when a file shadows the output directory, the hook throws at the
    first function: that function's publish call has already been sent,
    no other function is published, and nothing is written or created. *)
Theorem afterDeploy_stops_at_shadowed_directory (this : ServerlessResourcesEnv)
    (responses : list Callback) (resourceResult : ResourceResult)
    (first : string) (others : list string) (fs : FS) :
  snd (fetchCFResources this responses) = Resolved resourceResult ->
  lodash.keys (functions (service (serverless this))) = first :: others ->
  existsSync (getEnvDirectory this) fs = true ->
  statSync_isDirectory (getEnvDirectory this) fs = inr false ->
  fst (afterDeploy this responses fs)
  = (Throw (Error ("Expected " ++ getEnvDirectory this ++ " to be a directory")), fs)
  /\ (exists f,
        Js.get first (functions (service (serverless this))) = Some f
        /\ updates (snd (afterDeploy this responses fs))
           = [(getStackName this ++ "-" ++ first,
               thisFunctionEnv this (resources (StackResources resourceResult)) f)])
  /\ writes (snd (afterDeploy this responses fs)) = []
  /\ mkdirs (snd (afterDeploy this responses fs)) = [].
Proof.
  intros R K E D. rewrite afterDeploy_run, R, K.
  assert (In first (lodash.keys (functions (service (serverless this))))) as I
    by (rewrite K; left; reflexivity).
  destruct (keys_declared _ first I) as [f G].
  pose proof (updateFunction_trace this (getStackName this)
                (resources (StackResources resourceResult)) first f fs G) as [U W].
  rewrite mapM_cons_run.
  rewrite (updateFunction_run _ _ _ _ _ _ G) in *. cbv zeta in *.
  rewrite (createCFFile_run _ _ _ _ _ (declared_file_name _ _ _ G)) in *. cbv zeta in *.
  rewrite E, D in *. cbn [fst snd] in *.
  destruct (fetchCFResources_quiet this responses) as (QU & QW & QM).
  split; [reflexivity|]. split; [|split].
  - exists f. split; [exact G|]. rewrite updates_app, QU, U. reflexivity.
  - rewrite writes_app, QW, W. reflexivity.
  - rewrite mkdirs_app, QM, mkdirs_before. reflexivity.
Qed.

(** *** What is published *)

Lemma mapM_updateFunction_published this stackName resourceMap names (fs : FS) :
  exists n,
    Forall2
      (fun functionName call =>
         exists f,
           Js.get functionName (functions (service (serverless this))) = Some f
           /\ call = (stackName ++ "-" ++ functionName, thisFunctionEnv this resourceMap f))
      (firstn n names)
      (updates (snd (mapM (updateFunction this stackName resourceMap) names fs)))
    /\ (forall promises,
          fst (fst (mapM (updateFunction this stackName resourceMap) names fs)) = Ok promises ->
          n = length names).
Proof.
  revert fs. induction names as [|fn names IH]; intros fs.
  - exists 0. split; [constructor|]. intros ps _. reflexivity.
  - rewrite mapM_cons_run.
    destruct (Js.get fn (functions (service (serverless this)))) as [f|] eqn:G.
    + pose proof (updateFunction_trace this stackName resourceMap fn f fs G) as [U _].
      destruct (updateFunction this stackName resourceMap fn fs) as [[[b|e] fs1] ev1];
        cbn [fst snd] in U.
      * destruct (IH fs1) as [n [Un Cn]].
        destruct (mapM (updateFunction this stackName resourceMap) names fs1)
          as [[[bs|e] fs2] ev2]; cbn [fst snd] in *; exists (S n);
          rewrite updates_app, U; cbn [firstn app];
          (split; [constructor; [exists f; auto | exact Un]|]).
        -- intros ps _. rewrite (Cn bs eq_refl). reflexivity.
        -- intros ps [=].
      * exists 1. cbn [fst snd firstn]. rewrite U.
        split; [repeat constructor; exists f; auto|]. intros ps [=].
    + rewrite (updateFunction_undeclared _ _ _ _ _ G).
      exists 0. split; [constructor|]. intros ps [=].
Qed.

(** X13: every publish call of [afterDeploy] carries the whole resolved
    environment of its function (matched resources, provider environment,
    the function's own environment), for the declared functions in order
    up to the one at which a step throws, and for all of them when the hook
    runs through. *)
Theorem publish_carries_resolved_environment (this : ServerlessResourcesEnv)
    (responses : list Callback) (resourceResult : ResourceResult) (fs : FS) :
  snd (fetchCFResources this responses) = Resolved resourceResult ->
  exists n,
    Forall2
      (fun functionName call =>
         exists f,
           Js.get functionName (functions (service (serverless this))) = Some f
           /\ call = (getStackName this ++ "-" ++ functionName,
                      thisFunctionEnv this (resources (StackResources resourceResult)) f))
      (firstn n (lodash.keys (functions (service (serverless this)))))
      (updates (snd (afterDeploy this responses fs)))
    /\ (forall count,
          fst (fst (afterDeploy this responses fs)) = Ok (AllOf count) ->
          n = length (lodash.keys (functions (service (serverless this))))).
Proof.
  intros R. rewrite afterDeploy_run, R.
  destruct (fetchCFResources_quiet this responses) as (U & _).
  destruct (mapM_updateFunction_published this (getStackName this)
              (resources (StackResources resourceResult))
              (lodash.keys (functions (service (serverless this)))) fs)
    as [n [Un Cn]].
  exists n.
  destruct (mapM _ _ fs) as [[[ps|e] fs'] events]; cbn [fst snd] in *;
    rewrite updates_app, U, app_nil_l; (split; [exact Un|]).
  - intros count _. apply (Cn ps eq_refl).
  - intros count [=].
Qed.

(** *** Local invocation *)

(** X14: for the function named on the command line, [beforeLocalInvoke]
    hands [dotenv.config] the very path at which [createCFFile] writes that
    function's file. *)
Theorem local_invoke_reads_deploy_file (this : ServerlessResourcesEnv) (o : Options)
    (functionName : string) (resourceMap : Js.obj string) (fs : FS) :
  options this = Some o ->
  opt_function o = Some functionName ->
  fst (fst (createCFFile this functionName resourceMap fs)) = Ok tt ->
  exists invoke,
    beforeLocalInvoke this = Ok invoke
    /\ List.map fst (writes (snd (createCFFile this functionName resourceMap fs)))
       = [dotenv_path invoke]
    /\ invoke_logged invoke
       = "[serverless-resources-env] Pulling in env variables from " ++ dotenv_path invoke.
Proof.
  intros O F S.
  pose proof (createCFFile_trace this functionName resourceMap fs) as [_ W].
  rewrite S in W. destruct W as [fileName [E W]].
  unfold beforeLocalInvoke. rewrite O, F, E. eexists. split; [reflexivity|].
  rewrite W. split; reflexivity.
Qed.

End HookMore.

(** X15: when the function named on the command line is not declared in
    the service, [beforeLocalInvoke] throws a [TypeError], and loads
    nothing, unless the name is one every object inherits (such as
    [toString]); for those it goes on with the default file name. *)
Theorem beforeLocalInvoke_undeclared (this : ServerlessResourcesEnv) (o : Options)
    (functionName : string) :
  options this = Some o ->
  opt_function o = Some functionName ->
  Js.get functionName (functions (service (serverless this))) = None ->
  (Js.inherited functionName = false ->
     exists message, beforeLocalInvoke this = Throw (TypeError message))
  /\ (Js.inherited functionName = true ->
      exists invoke,
        beforeLocalInvoke this = Ok invoke
        /\ dotenv_path invoke
           = getEnvDirectory this ++ "/" ++ "." ++ getRegion this ++ "_" ++ getStage this
             ++ "_" ++ functionName).
Proof.
  intros O F G. unfold beforeLocalInvoke, getEnvFileName. rewrite O, F, G.
  split; intros ->.
  - eexists. reflexivity.
  - eexists. split; reflexivity.
Qed.

(** *** Order and shape of what is selected *)

Lemma keys_copy_fresh {V} (from : Js.obj V) (ks : list string) (acc : Js.obj V) :
  NoDup ks ->
  (forall k, In k ks -> Js.get k acc = None) ->
  List.map fst
    (fold_left (fun r x => match Js.get x from with Some v => Js.set x v r | None => r end)
       ks acc)
  = (List.map fst acc ++ filter (fun k => Js.has k from) ks)%list.
Proof.
  revert acc. induction ks as [|x ks IH]; intros acc ND F; cbn [fold_left filter].
  - rewrite app_nil_r. reflexivity.
  - inversion ND as [|? ? NI ND']; subst. unfold Js.has at 1.
    destruct (Js.get x from) as [v|] eqn:G.
    + rewrite IH; [| exact ND' |].
      * rewrite (set_fresh _ _ _ (F x (or_introl eq_refl))), map_app, <- app_assoc.
        reflexivity.
      * intros k I. rewrite JsFacts.get_set_other; [apply F; right; exact I|].
        intros ->. contradiction.
    + apply IH; [exact ND' | intros; apply F; right; assumption].
Qed.

(** X16: when a function lists each resource once, under names [_.pick]
    takes as they are (no ["."], no ["["]), the keys of its matched
    resources are its requested keys that the resource map has, in the
    order of its [env-resources] list, not in the order CloudFormation
    returned them. *)
Theorem matched_follow_request_order (resourceMap : Js.obj string) (f : FunctionDef) :
  forallb lodash.literal_name (resourceList f) = true ->
  NoDup (resourceList f) ->
  lodash.keys (thisFunctionsResources resourceMap f)
  = filter (fun key => Js.has key resourceMap) (resourceList f).
Proof.
  intros _ ND. rewrite keys_thisFunctionsResources.
  unfold thisFunctionsResources, lodash.pick.
  rewrite keys_copy_fresh; [reflexivity | exact ND | reflexivity].
Qed.

Lemma matched_follow_request_order_witness :
  lodash.keys (thisFunctionsResources (resources testResources) (wants ["c"; "x"; "a"]))
  = filter (fun key => Js.has key (resources testResources))
      (resourceList (wants ["c"; "x"; "a"])).
Proof.
  apply (matched_follow_request_order (resources testResources) (wants ["c"; "x"; "a"]));
    [reflexivity|].
  repeat constructor; simpl; intuition discriminate.
Defined.


(* ================================================================== *)
(** ** The further properties on concrete services *)

Lemma no_warning_when_all_found_witness :
  notFoundList (resources testResources) (wants ["a"; "b"; "c"]) = []
  /\ logged (snd (updateFunction (stub testFunctions) "unit-test-service-dev"
                    (resources testResources) "function1" ([] : MemFS)))
     = [ "[serverless-resources-env] Setting env vars for function1. ";
         "[serverless-resources-env] Writing 3 CF resources to .us-east-1_dev_function1" ].
Proof.
  destruct (no_warning_when_all_found (stub testFunctions) "unit-test-service-dev"
              (resources testResources) "function1" (wants ["a"; "b"; "c"]) ([] : MemFS)
              eq_refl) as [none trace].
  - intros key [<-|[<-|[<-|[]]]]; discriminate.
  - split; [exact none|]. rewrite trace. reflexivity.
Defined.

Lemma afterDeploy_runs_through_witness :
  fst (afterDeploy (stub testFunctions) [lastPage testResources]
         ([("./.serverless-resources-env", Directory 448)] : MemFS))
  = (Ok (AllOf 4), [("./.serverless-resources-env", Directory 448)])
  /\ mkdirs (snd (afterDeploy (stub testFunctions) [lastPage testResources]
                    ([("./.serverless-resources-env", Directory 448)] : MemFS))) = []
  /\ length (updates (snd (afterDeploy (stub testFunctions) [lastPage testResources]
                             ([("./.serverless-resources-env", Directory 448)] : MemFS)))) = 4
  /\ length (writes (snd (afterDeploy (stub testFunctions) [lastPage testResources]
                            ([("./.serverless-resources-env", Directory 448)] : MemFS)))) = 4.
Proof.
  apply (afterDeploy_runs_through (stub testFunctions) [lastPage testResources]
           {| StackResources := testResources |}
           ([("./.serverless-resources-env", Directory 448)] : MemFS));
    reflexivity.
Defined.

Lemma afterDeploy_creates_directory_once_witness :
  fst (afterDeploy (stub testFunctions) [lastPage testResources] ([] : MemFS))
  = (Ok (AllOf 4), [("./.serverless-resources-env", Directory 448)])
  /\ mkdirs (snd (afterDeploy (stub testFunctions) [lastPage testResources] ([] : MemFS)))
     = [("./.serverless-resources-env", 448%N)].
Proof.
  apply (afterDeploy_creates_directory_once (stub testFunctions) [lastPage testResources]
           {| StackResources := testResources |}
           "function1" ["function2"; "function3"; "function4"]
           ([] : MemFS) [("./.serverless-resources-env", Directory 448)]);
    reflexivity.
Defined.

Lemma afterDeploy_stops_at_shadowed_directory_witness :
  fst (afterDeploy (stub testFunctions) [lastPage testResources]
         ([("./.serverless-resources-env", RegularFile)] : MemFS))
  = (Throw (Error "Expected ./.serverless-resources-env to be a directory"),
     [("./.serverless-resources-env", RegularFile)])
  /\ List.map fst
       (updates (snd (afterDeploy (stub testFunctions) [lastPage testResources]
                        ([("./.serverless-resources-env", RegularFile)] : MemFS))))
     = ["unit-test-service-dev-function1"]
  /\ writes (snd (afterDeploy (stub testFunctions) [lastPage testResources]
                    ([("./.serverless-resources-env", RegularFile)] : MemFS))) = [].
Proof.
  destruct (afterDeploy_stops_at_shadowed_directory (stub testFunctions)
              [lastPage testResources] {| StackResources := testResources |}
              "function1" ["function2"; "function3"; "function4"]
              ([("./.serverless-resources-env", RegularFile)] : MemFS))
    as (thrown & (f & _ & published) & written & _); try reflexivity.
  split; [exact thrown|]. split; [rewrite published; reflexivity | exact written].
Defined.

Lemma publish_carries_resolved_environment_witness :
  exists n,
    Forall2
      (fun functionName call =>
         exists f,
           Js.get functionName (functions (service (serverless helloService))) = Some f
           /\ call = (getStackName helloService ++ "-" ++ functionName,
                      thisFunctionEnv helloService
                        (resources
                           (StackResources
                              {| StackResources :=
                                   [ {| LogicalResourceId := "testTopic1";
                                        PhysicalResourceId := "arn:topic1" |} ] |})) f))
      (firstn n (lodash.keys (functions (service (serverless helloService)))))
      (updates (snd (afterDeploy helloService helloResponses ([] : MemFS))))
    /\ (forall count,
          fst (fst (afterDeploy helloService helloResponses ([] : MemFS))) = Ok (AllOf count) ->
          n = length (lodash.keys (functions (service (serverless helloService))))).
Proof.
  apply (publish_carries_resolved_environment helloService helloResponses
           {| StackResources :=
                [ {| LogicalResourceId := "testTopic1";
                     PhysicalResourceId := "arn:topic1" |} ] |}
           ([] : MemFS)).
  reflexivity.
Defined.

Lemma local_invoke_reads_deploy_file_witness :
  exists invoke,
    beforeLocalInvoke helloInvoke = Ok invoke
    /\ List.map fst
         (writes (snd (createCFFile helloInvoke "hello" [("CF_testTopic1", "arn:topic1")]
                         ([] : MemFS))))
       = [dotenv_path invoke]
    /\ invoke_logged invoke
       = "[serverless-resources-env] Pulling in env variables from " ++ dotenv_path invoke.
Proof.
  apply (local_invoke_reads_deploy_file helloInvoke
           {| opt_stage := None; opt_region := None; opt_function := Some "hello" |}
           "hello" [("CF_testTopic1", "arn:topic1")] ([] : MemFS));
    reflexivity.
Defined.

Lemma beforeLocalInvoke_undeclared_witness :
  (exists message,
      beforeLocalInvoke
        {| serverless := serverless helloService;
           options := Some {| opt_stage := None; opt_region := None;
                              opt_function := Some "goodbye" |} |}
      = Throw (TypeError message))
  /\ (exists invoke,
        beforeLocalInvoke
          {| serverless := serverless helloService;
             options := Some {| opt_stage := None; opt_region := None;
                                opt_function := Some "toString" |} |}
        = Ok invoke
        /\ dotenv_path invoke = "./.serverless-resources-env/.us-east-1_dev_toString").
Proof.
  split.
  - destruct (beforeLocalInvoke_undeclared
                {| serverless := serverless helloService;
                   options := Some {| opt_stage := None; opt_region := None;
                                      opt_function := Some "goodbye" |} |}
                {| opt_stage := None; opt_region := None; opt_function := Some "goodbye" |}
                "goodbye") as [thrown _]; try reflexivity.
    apply thrown. reflexivity.
  - destruct (beforeLocalInvoke_undeclared
                {| serverless := serverless helloService;
                   options := Some {| opt_stage := None; opt_region := None;
                                      opt_function := Some "toString" |} |}
                {| opt_stage := None; opt_region := None; opt_function := Some "toString" |}
                "toString") as [_ loaded]; try reflexivity.
    apply loaded. reflexivity.
Defined.

(* ================================================================== *)
(** ** The first revision *)

Lemma revision1_updates_app e1 e2 :
  Revision1.updates (e1 ++ e2) = (Revision1.updates e1 ++ Revision1.updates e2)%list.
Proof. apply flat_map_app. Qed.

Lemma revision1_writes_app e1 e2 :
  Revision1.writes (e1 ++ e2) = (Revision1.writes e1 ++ Revision1.writes e2)%list.
Proof. apply flat_map_app. Qed.

Lemma revision1_publish_trace (stackName : string) (resourceMap : Js.obj string)
    (names : list string) :
  Revision1.updates
    (flat_map (fun functionName =>
                 Revision1.updateFuctionEnv (stackName ++ "-" ++ functionName) resourceMap)
       names)
  = List.map (fun functionName => (stackName ++ "-" ++ functionName, resourceMap)) names
  /\ Revision1.writes
       (flat_map (fun functionName =>
                    Revision1.updateFuctionEnv (stackName ++ "-" ++ functionName) resourceMap)
          names)
     = [].
Proof.
  induction names as [|fn names [U W]]; [split; reflexivity|].
  cbn [flat_map List.map]. rewrite revision1_updates_app, revision1_writes_app, U, W.
  split; reflexivity.
Qed.

(** X18: in the first revision, once the fetch resolves, every declared
    function is sent the whole resource map, one file holding the whole
    map (one line per entry) is written under the service path, named by
    [resource-output-file] or [.<stage>-env], the write is issued before
    any publish call, and the promise returned waits on the publish calls
    only. *)
Theorem revision1_every_function_gets_every_resource (this : Revision1.Plugin)
    (resourceResult : ResourceResult) :
  Revision1.updates (fst (Revision1.afterDeploy this (inr resourceResult)))
  = List.map
      (fun functionName =>
         (getStackName (Revision1.plugin this) ++ "-" ++ functionName,
          resources (StackResources resourceResult)))
      (lodash.keys (functions (service (serverless (Revision1.plugin this)))))
  /\ Revision1.writes (fst (Revision1.afterDeploy this (inr resourceResult)))
     = [(servicePath (config (serverless (Revision1.plugin this))) ++ "/"
         ++ Js.or_else (Revision1.resource_output_file this)
              ("." ++ getStage (Revision1.plugin this) ++ "-env"),
         lines (Js.entries (resources (StackResources resourceResult))))]
  /\ (exists before after,
        fst (Revision1.afterDeploy this (inr resourceResult))
        = (before ++ after)%list
        /\ Revision1.updates before = []
        /\ Revision1.writes after = []
        /\ length (Revision1.writes before) = 1)
  /\ snd (Revision1.afterDeploy this (inr resourceResult))
     = Revision1.AllOf
         (length (lodash.keys (functions (service (serverless (Revision1.plugin this)))))).
Proof.
  unfold Revision1.afterDeploy, Revision1.fetchCFResources. cbn [fst snd].
  destruct (revision1_publish_trace (getStackName (Revision1.plugin this))
              (resources (StackResources resourceResult))
              (lodash.keys (functions (service (serverless (Revision1.plugin this))))))
    as [U W].
  repeat split.
  - rewrite revision1_updates_app, revision1_updates_app, U. reflexivity.
  - rewrite revision1_writes_app, revision1_writes_app, W, <- properties_lines. reflexivity.
  - eexists (_ ++ Revision1.createCFFile this _)%list, _.
    rewrite <- app_assoc. split; [reflexivity|].
    split; [reflexivity|]. split; [exact W | reflexivity].
Qed.
